(** * backup.py: Dropbox Business backup, a shallow embedding

    The program lists the members of a Dropbox Business team, lists the files
    of each member folder by folder, filters them by size and date, puts the
    survivors in a queue that admits every file id once, and downloads the
    queued files under an output directory.

    Python values are modelled as follows.
    - [str] is a list of Unicode code points ([pystr]).
    - [int] is [Z]; a [datetime] is the [Z] number of microseconds of its
      instant, which is the order Python compares naive datetimes by.
    - the float [1e6 * args.maxsize] is computed with binary64 rounding
      ([round_binary64]); Python compares an int with a float exactly.
    - an exception is a class and a message; [isinstance] walks the class
      hierarchy of the classes the program can meet.
    - a call ends in a [result], a value or an exception; a call that may
      block (a queue operation in this single-threaded program) has an
      [outcome], a result or waiting for ever.
    - a generator is the list of the items it yields together with the way it
      finishes ([gen]); loops whose length the remote service decides take
      fuel.
    Calls to [logging] in [should_download] and [list_files], and the calls
    to [print], only write diagnostics and are left out; the log of
    [save_file] and [list_and_save] is modelled. *)

From Stdlib Require Import ZArith NArith List Bool Lia Ascii String.
Import ListNotations.
Open Scope Z_scope.

(** ** Strings *)

Definition pystr := list N.

(** The code points of an ASCII literal. *)
Definition str (s : string) : pystr :=
  map N_of_ascii (list_ascii_of_string s).

Fixpoint str_eqb (a b : pystr) : bool :=
  match a, b with
  | [], [] => true
  | x :: a', y :: b' => N.eqb x y && str_eqb a' b'
  | _, _ => false
  end.

(** [c in s] for a one-character string [c]. *)
Definition char_in (c : N) (s : pystr) : bool := existsb (N.eqb c) s.

Module pystring.
(** The constants of Python's [string] module that [printable] is made of. *)
Definition digits : pystr := str "0123456789".
Definition ascii_lowercase : pystr := str "abcdefghijklmnopqrstuvwxyz".
Definition ascii_uppercase : pystr := str "ABCDEFGHIJKLMNOPQRSTUVWXYZ".
Definition ascii_letters : pystr := ascii_lowercase ++ ascii_uppercase.
(** 34 is the double quote. *)
Definition punctuation : pystr :=
  str "!" ++ [34%N] ++ str "#$%&'()*+,-./:;<=>?@[\]^_`{|}~".
(** space, tab, line feed, carriage return, vertical tab, form feed *)
Definition whitespace : pystr := [32; 9; 10; 13; 11; 12]%N.
Definition printable : pystr :=
  digits ++ ascii_letters ++ punctuation ++ whitespace.
End pystring.

(** ** Exceptions and results *)

Inductive exc_class :=
| BaseException | KeyboardInterrupt | SystemExit
| Exception
| ArithmeticError | OverflowError
| AttributeError | TypeError
| OSError | FileNotFoundError | PermissionError
| Empty.  (* queue.Empty *)

Definition exc_class_eqb (a b : exc_class) : bool :=
  match a, b with
  | BaseException, BaseException | KeyboardInterrupt, KeyboardInterrupt
  | SystemExit, SystemExit | Exception, Exception
  | ArithmeticError, ArithmeticError | OverflowError, OverflowError
  | AttributeError, AttributeError | TypeError, TypeError
  | OSError, OSError | FileNotFoundError, FileNotFoundError
  | PermissionError, PermissionError | Empty, Empty => true
  | _, _ => false
  end.

(** The direct base class. *)
Definition exc_base (c : exc_class) : option exc_class :=
  match c with
  | BaseException => None
  | KeyboardInterrupt | SystemExit | Exception => Some BaseException
  | ArithmeticError | AttributeError | TypeError | OSError | Empty =>
      Some Exception
  | OverflowError => Some ArithmeticError
  | FileNotFoundError | PermissionError => Some OSError
  end.

Fixpoint issubclass_fuel (n : nat) (c d : exc_class) : bool :=
  exc_class_eqb c d ||
  match n, exc_base c with
  | S n', Some b => issubclass_fuel n' b d
  | _, _ => false
  end.

(** The hierarchy is three levels deep. *)
Definition issubclass (c d : exc_class) : bool := issubclass_fuel 3 c d.

Record exception := mk_exception { exc_type : exc_class; exc_str : pystr }.

Definition isinstance (e : exception) (d : exc_class) : bool :=
  issubclass (exc_type e) d.

(** How a call that comes back ends: it returns a value or raises. *)
Inductive result (A : Type) :=
| Return (a : A)
| Raise (e : exception).
Arguments Return {A} a.
Arguments Raise {A} e.

(** A call that may block: it comes back, or it waits for ever (the program
    has one thread, so nothing can wake a blocked queue operation). *)
Inductive outcome (A : Type) :=
| Ends (r : result A)
| Hangs.
Arguments Ends {A} r.
Arguments Hangs {A}.

(** ** Floats *)

(** The doubles the program computes are integers or infinite. *)
Inductive pyfloat :=
| Finite (z : Z)
| Infinity (negative : bool).

(** Round to nearest, ties to even, on a 53-bit significand. *)
Definition round_binary64 (n : Z) : Z :=
  let a := Z.abs n in
  let e := Z.log2 a - 52 in
  if e <=? 0 then n
  else
    let q := Z.shiftr a e in
    let r := Z.land a (Z.ones e) in
    let half := Z.shiftl 1 (e - 1) in
    let q' := if (half <? r) || ((r =? half) && Z.odd q) then q + 1 else q in
    Z.sgn n * Z.shiftl q' e.

Definition float_max_bound : Z := 2 ^ 1024.

(** [float(n)], the conversion int * float applies to its int operand: the
    value of the double, or OverflowError. *)
Definition float_of_int (n : Z) : result Z :=
  let r := round_binary64 n in
  if float_max_bound <=? Z.abs r
  then Raise (mk_exception OverflowError (str "int too large to convert to float"))
  else Return r.

(** The product of two finite doubles with integer values. *)
Definition float_mul (a b : Z) : pyfloat :=
  let r := round_binary64 (a * b) in
  if float_max_bound <=? Z.abs r then Infinity (r <? 0) else Finite r.

(** [n > x] for an int [n] and a float [x]: exact in Python. *)
Definition int_gt_float (n : Z) (x : pyfloat) : bool :=
  match x with
  | Finite z => z <? n
  | Infinity negative => negative
  end.

(** ** Data model *)

(** dropbox.files.FileMetadata: the attributes the program reads. *)
Record FileMetadata := mk_FileMetadata {
  id : pystr;
  file_path_display : pystr;
  size : Z;
  server_modified : Z
}.

(** An entry of a folder listing.  A folder has no [size]. *)
Inductive Metadata :=
| MFile (f : FileMetadata)
| MFolder (folder_path_display : pystr).

Definition path_display (m : Metadata) : pystr :=
  match m with
  | MFile f => file_path_display f
  | MFolder p => p
  end.

(** dropbox.team.TeamMemberInfo with its profile flattened. *)
Record TeamMemberInfo := mk_TeamMemberInfo {
  team_member_id : pystr;
  display_name : pystr
}.

(** argparse.Namespace as [parse_args] returns it; [limit_arg] is
    [args.limit]. *)
Record Namespace := mk_Namespace {
  since : option Z;
  maxsize : Z;
  out : pystr;
  loglevel : Z;
  token : pystr;
  limit_arg : option Z
}.

(** class File *)
Record File := mk_File {
  file : FileMetadata;
  member : TeamMemberInfo
}.

(** ** should_download *)

Definition should_download (entry : Metadata) (args : Namespace) : result bool :=
  match entry with
  | MFolder _ =>
      (* file.size *)
      Raise (mk_exception AttributeError (str "size"))
  | MFile f =>
      match float_of_int (maxsize args) with
      | Raise e => Raise e
      | Return m =>
          if int_gt_float (size f) (float_mul 1000000 m)
          then Return false
          else
            match since args with
            | Some s => if server_modified f <? s then Return false else Return true
            | None => Return true
            end
      end
  end.

(** ** remove_unprintable *)

Definition remove_unprintable (text : pystr) : pystr :=
  filter (fun c => char_in c pystring.printable) text.

(** ** os.path (posixpath) *)

Module os_path.
Definition sep : N := 47%N.

Definition startswith_sep (p : pystr) : bool :=
  match p with
  | c :: _ => N.eqb c sep
  | [] => false
  end.

Definition endswith_sep (p : pystr) : bool := startswith_sep (rev p).

(** [os.path.join(a, b)]: an absolute [b] discards [a]. *)
Definition join (a b : pystr) : pystr :=
  if startswith_sep b then b
  else if match a with [] => true | _ => endswith_sep a end then a ++ b
  else a ++ sep :: b.

Fixpoint rstrip_sep_rev (r : pystr) : pystr :=
  match r with
  | c :: r' => if N.eqb c sep then rstrip_sep_rev r' else r
  | [] => []
  end.

(** [p.rstrip(sep)] *)
Definition rstrip_sep (p : pystr) : pystr := rev (rstrip_sep_rev (rev p)).

Fixpoint drop_to_sep (r : pystr) : pystr :=
  match r with
  | c :: r' => if N.eqb c sep then r else drop_to_sep r'
  | [] => []
  end.

(** [os.path.dirname(p)]: everything up to the last separator, without
    trailing separators unless it consists of separators only. *)
Definition dirname (p : pystr) : pystr :=
  let head := rev (drop_to_sep (rev p)) in
  if forallb (N.eqb sep) head then head else rstrip_sep head.
End os_path.

(** ** Generators *)

(** The items a generator yields, in order, and how it finishes: by
    returning or by raising. *)
Definition gen (A : Type) : Type := list A * result unit.

Definition gen_done {A} : gen A := ([], Return tt).
Definition gen_yield {A} (x : A) : gen A := ([x], Return tt).
Definition gen_raise {A} (e : exception) : gen A := ([], Raise e).

(** Run [g], and [k] after it when [g] finishes by returning.  [None] is a
    loop that ran out of fuel. *)
Definition gen_then {A} (g k : option (gen A)) : option (gen A) :=
  match g with
  | None => None
  | Some (xs, Return _) =>
      match k with
      | None => None
      | Some (ys, fin) => Some (xs ++ ys, fin)
      end
  | Some (xs, fin) => Some (xs, fin)
  end.

(** The decorator [limit(limit)] applied to a function whose call yields
    [g].  The wrapper compares the index of every item with [limit] before
    it yields the item: it stops at the first index that is not below the
    limit and abandons [g] there; with no limit the comparison of an int
    with None raises TypeError. *)
Definition limit {A} (lim : option Z) (g : gen A) : gen A :=
  let (items, fin) := g in
  match lim with
  | None =>
      match items with
      | [] => g
      | _ :: _ =>
          ([], Raise (mk_exception TypeError
                        (str "'<' not supported between instances of 'int' and 'NoneType'")))
      end
  | Some n =>
      let k := Z.to_nat n in
      if (k <? List.length items)%nat then (firstn k items, Return tt) else g
  end.

(** ** The remote service *)

Definition cursor_t := pystr.

(** dropbox.team.MembersListResult *)
Record MembersListResult := mk_MembersListResult {
  members : list TeamMemberInfo;
  members_has_more : bool;
  members_cursor : cursor_t
}.

(** dropbox.files.ListFolderResult *)
Record ListFolderResult := mk_ListFolderResult {
  entries : list Metadata;
  has_more : bool;
  cursor : cursor_t
}.

(** dropbox.DropboxTeam: the calls the program makes.  The listing calls
    answer; [files_download_to_file] stands for
    [team.as_user(file.member.member_id).files_download_to_file(local, remote)]
    and says which exception the two calls raise, if any. *)
Record DropboxTeam := mk_DropboxTeam {
  team_members_list : MembersListResult;
  team_members_list_continue : cursor_t -> MembersListResult;
  files_list_folder : pystr -> pystr -> ListFolderResult;
  files_list_folder_continue : pystr -> cursor_t -> ListFolderResult;
  files_download_to_file : TeamMemberInfo -> pystr -> pystr -> option exception
}.

(** ** list_members *)

(** The [while members_list.has_more] loop.  Besides the members it yields,
    the model records the cursors passed to [team_members_list_continue]. *)
Fixpoint list_members_loop (fuel : nat) (team : DropboxTeam)
    (members_list : MembersListResult)
    : option (list TeamMemberInfo * list cursor_t) :=
  if members_has_more members_list then
    match fuel with
    | O => None
    | S fuel' =>
        let c := members_cursor members_list in
        let members_list' := team_members_list_continue team c in
        match list_members_loop fuel' team members_list' with
        | None => None
        | Some (ms, cs) => Some (members members_list' ++ ms, c :: cs)
        end
    end
  else Some ([], []).

Definition list_members_trace (fuel : nat) (team : DropboxTeam)
    : option (list TeamMemberInfo * list cursor_t) :=
  let members_list := team_members_list team in
  match list_members_loop fuel team members_list with
  | None => None
  | Some (ms, cs) => Some (members members_list ++ ms, cs)
  end.

Definition list_members (fuel : nat) (team : DropboxTeam)
    : option (list TeamMemberInfo) :=
  option_map fst (list_members_trace fuel team).

(** ** list_files *)

Section ListFiles.
Variable team : DropboxTeam.
Variable member_ : TeamMemberInfo.
Variable args : Namespace.
(** The call [list_files(team, member, args, path)] of the decorated
    function, as the body sees it. *)
Variable recurse : pystr -> option (gen File).

(** The body of the two [for entry in folder_list.entries] loops. *)
Definition list_entry (entry : Metadata) : option (gen File) :=
  match should_download entry args with
  | Return true =>
      match entry with
      | MFile f => Some (gen_yield (mk_File f member_))
      | MFolder _ => Some gen_done  (* not reached: a folder raises *)
      end
  | Return false => Some gen_done
  | Raise e =>
      if isinstance e AttributeError
      then recurse (path_display entry)
      else Some (gen_raise e)
  end.

Fixpoint list_entries (es : list Metadata) : option (gen File) :=
  match es with
  | [] => Some gen_done
  | entry :: rest => gen_then (list_entry entry) (list_entries rest)
  end.

(** The [while folder_list.has_more] loop. *)
Fixpoint list_more (fuel : nat) (folder_list : ListFolderResult)
    : option (gen File) :=
  if has_more folder_list then
    match fuel with
    | O => None
    | S fuel' =>
        let folder_list' :=
          files_list_folder_continue team (team_member_id member_)
                                     (cursor folder_list) in
        gen_then (list_entries (entries folder_list'))
                 (list_more fuel' folder_list')
    end
  else Some gen_done.

(** The undecorated generator function. *)
Definition list_files_body (fuel : nat) (dir_ : pystr) : option (gen File) :=
  let folder_list := files_list_folder team (team_member_id member_) dir_ in
  gen_then (list_entries (entries folder_list)) (list_more fuel folder_list).
End ListFiles.

(** The limit the decorator is applied with: [@limit(10)]. *)
Definition list_files_limit : option Z := Some 10.

(** [list_files] is the decorated function; the recursive calls in its body
    go through the module-level name, that is through the decorator. *)
Fixpoint list_files (fuel : nat) (team : DropboxTeam) (member_ : TeamMemberInfo)
    (args : Namespace) (dir_ : pystr) : option (gen File) :=
  match fuel with
  | O => None
  | S fuel' =>
      option_map (limit list_files_limit)
        (list_files_body team member_ args
           (list_files fuel' team member_ args) fuel' dir_)
  end.

(** ** Objects *)

(** The Python objects [File.__eq__] may be handed.  [PyObject] is an
    instance of a class with the given attributes: [with_attr] is an
    attribute that has a value, [with_property] one whose read raises (a
    property whose getter raises).  [PyRaisesOnEq e] is an object without
    the attributes [file] and [id] whose [__eq__] raises [e]. *)
Inductive pyobj :=
| PyNone
| PyInt (z : Z)
| PyStr (s : pystr)
| PyFileMetadata (f : FileMetadata)
| PyFile (f : File)
| PyObject (attrs : pyattrs)
| PyRaisesOnEq (e : exception)
with pyattrs :=
| no_attrs
| with_attr (name : pystr) (value : pyobj) (rest : pyattrs)
| with_property (name : pystr) (e : exception) (rest : pyattrs).

(** The read of the attribute [name]: None when there is no such
    attribute. *)
Fixpoint lookup_attr (name : pystr) (attrs : pyattrs) : option (result pyobj) :=
  match attrs with
  | no_attrs => None
  | with_attr k v rest =>
      if str_eqb k name then Some (Return v) else lookup_attr name rest
  | with_property k e rest =>
      if str_eqb k name then Some (Raise e) else lookup_attr name rest
  end.

Definition no_attribute {A} (name : pystr) : result A :=
  Raise (mk_exception AttributeError name).

(** [o.file] *)
Definition attr_file (o : pyobj) : result pyobj :=
  match o with
  | PyFile f => Return (PyFileMetadata (file f))
  | PyObject attrs =>
      match lookup_attr (str "file") attrs with
      | Some r => r
      | None => no_attribute (str "file")
      end
  | _ => no_attribute (str "file")
  end.

(** [o.id] *)
Definition attr_id (o : pyobj) : result pyobj :=
  match o with
  | PyFileMetadata f => Return (PyStr (id f))
  | PyObject attrs =>
      match lookup_attr (str "id") attrs with
      | Some r => r
      | None => no_attribute (str "id")
      end
  | _ => no_attribute (str "id")
  end.

(** [s == o] for a str [s]: a str equals only a str with the same
    characters; for another object Python asks the object, whose [__eq__]
    may raise. *)
Definition str_eq_obj (s : pystr) (o : pyobj) : result bool :=
  match o with
  | PyStr t => Return (str_eqb s t)
  | PyRaisesOnEq e => Raise e
  | _ => Return false
  end.

(** ** class File *)

(** File.__eq__ *)
Definition File___eq__ (self : File) (other : pyobj) : result bool :=
  let body :=
    match attr_file other with
    | Raise e => Raise e
    | Return other_file =>
        match attr_id other_file with
        | Raise e => Raise e
        | Return other_id => str_eq_obj (id (file self)) other_id
        end
    end in
  match body with
  | Return b => Return b
  | Raise e => if isinstance e AttributeError then Return false else Raise e
  end.

(** ** Logging *)

Inductive log_record :=
| LogInfo (msg : pystr)            (* logger.info *)
| LogError (msg : pystr)           (* logger.error *)
| LogException (msg : pystr) (e : exception).  (* logger.exception *)

Definition log := list log_record.

(** The file system: which exception [os.makedirs(path, exist_ok=True)]
    raises, if any. *)
Record FileSystem := mk_FileSystem {
  os_makedirs : pystr -> option exception
}.

(** ** save_file *)

(** The local path [save_file] writes to. *)
Definition local_path_of (file_ : File) (root : pystr) : pystr :=
  os_path.join root (remove_unprintable (file_path_display (file file_))).

Definition save_file (fs : FileSystem) (team : DropboxTeam) (file_ : File)
    (root : pystr) (lg : log) : log * result unit :=
  let printable_path := remove_unprintable (file_path_display (file file_)) in
  let lg := lg ++ [LogInfo (str "Saving " ++ printable_path)] in
  let local_path := os_path.join root printable_path in
  match os_makedirs fs (os_path.dirname local_path) with
  | Some ex =>
      if isinstance ex FileNotFoundError
      then (lg ++ [LogError (exc_str ex)], Return tt)
      else (lg, Raise ex)
  | None =>
      match files_download_to_file team (member file_) local_path
                                   (file_path_display (file file_)) with
      | Some ex =>
          if isinstance ex Exception
          then (lg ++ [LogException (str "Exception whilst saving " ++ local_path) ex],
                Return tt)
          else (lg, Raise ex)
      | None => (lg, Return tt)
      end
  end.

Section Hashing.
(** Python's hash of a str: some function of the characters. *)
Variable hash_str : pystr -> Z.

(** File.__hash__ *)
Definition File___hash__ (self : File) : Z := hash_str (id (file self)).

(** ** set *)

(** A set of File objects, as the list of its elements. *)
Definition pyset := list File.

(** [x == y] as the set evaluates it on two of its keys. *)
Definition File_eqb (x y : File) : bool :=
  match File___eq__ x (PyFile y) with
  | Return b => b
  | Raise _ => false
  end.

(** [item in s]: an element with the same hash that equals [item]. *)
Definition set_contains (s : pyset) (item : File) : bool :=
  existsb (fun x => (File___hash__ x =? File___hash__ item) && File_eqb x item) s.

(** [s.add(item)] *)
Definition set_add (s : pyset) (item : File) : pyset :=
  if set_contains s item then s else item :: s.

(** ** class SetQueue(queue.Queue) *)

(** The state of a SetQueue: the bound and the deque of queue.Queue, and the
    set [all_items] the subclass adds.  The lock, the condition variables and
    the count of unfinished tasks of queue.Queue are left out: the program has
    one thread and never calls [join] or [task_done]. *)
Record SetQueue := mk_SetQueue {
  queue_maxsize : Z;
  queue : list File;      (* the deque of queue.Queue, oldest first *)
  all_items : pyset
}.

(** SetQueue.__init__ *)
Definition SetQueue_init (maxsize_ : Z) : SetQueue :=
  mk_SetQueue maxsize_ [] [].

(** SetQueue._put *)
Definition SetQueue__put (self : SetQueue) (item : File) : SetQueue :=
  if negb (set_contains (all_items self) item)
  then mk_SetQueue (queue_maxsize self) (queue self ++ [item])
                   (set_add (all_items self) item)
  else self.

(** Queue.put(item) with block=True and no timeout: waits while a bounded
    queue is full, then calls [_put]. *)
Definition Queue_put (self : SetQueue) (item : File) : outcome SetQueue :=
  if (0 <? queue_maxsize self)
     && (queue_maxsize self <=? Z.of_nat (List.length (queue self)))
  then Hangs
  else Ends (Return (SetQueue__put self item)).

(** Queue.get() with block=True and no timeout: waits while the queue is
    empty, then removes and returns the oldest item.  It raises
    queue.Empty only when called with block=False or with a timeout. *)
Definition Queue_get (self : SetQueue) : outcome (File * SetQueue) :=
  match queue self with
  | [] => Hangs
  | item :: rest =>
      Ends (Return (item, mk_SetQueue (queue_maxsize self) rest (all_items self)))
  end.

(** ** list_and_save *)

Definition version : pystr := str "2.0.0".
Definition module_file : pystr := str "backup.py".

(** [for f in list_files(...): file_queue.put(f)] over the items yielded. *)
Fixpoint put_all (q : SetQueue) (items : list File) : outcome SetQueue :=
  match items with
  | [] => Ends (Return q)
  | f :: rest =>
      match Queue_put q f with
      | Ends (Return q') => put_all q' rest
      | Ends (Raise e) => Ends (Raise e)
      | Hangs => Hangs
      end
  end.

(** The [for member in members] loop. *)
Fixpoint fill (fuel : nat) (team : DropboxTeam) (args : Namespace)
    (members_ : list TeamMemberInfo) (q : SetQueue)
    : option (outcome SetQueue) :=
  match members_ with
  | [] => Some (Ends (Return q))
  | member_ :: rest =>
      match list_files fuel team member_ args [] with
      | None => None
      | Some (items, fin) =>
          match put_all q items with
          | Ends (Return q') =>
              match fin with
              | Return _ => fill fuel team args rest q'
              | Raise e => Some (Ends (Raise e))
              end
          | Ends (Raise e) => Some (Ends (Raise e))
          | Hangs => Some Hangs
          end
      end
  end.

(** The [while True] loop that downloads each file. *)
Fixpoint drain (fuel : nat) (fs : FileSystem) (team : DropboxTeam)
    (args : Namespace) (q : SetQueue) (lg : log)
    : option (log * outcome unit) :=
  match fuel with
  | O => None
  | S fuel' =>
      let attempt : log * outcome SetQueue :=
        match Queue_get q with
        | Hangs => (lg, Hangs)
        | Ends (Raise e) => (lg, Ends (Raise e))
        | Ends (Return (item, q')) =>
            match save_file fs team item (out args) lg with
            | (lg', Return _) => (lg', Ends (Return q'))
            | (lg', Raise e) => (lg', Ends (Raise e))
            end
        end in
      match attempt with
      | (lg', Ends (Return q')) => drain fuel' fs team args q' lg'
      | (lg', Ends (Raise e)) =>
          if isinstance e Empty
          then Some (lg' ++ [LogInfo (str "File queue is empty")], Ends (Return tt))
          else Some (lg', Ends (Raise e))
      | (lg', Hangs) => Some (lg', Hangs)
      end
  end.

Definition list_and_save (fuel : nat) (fs : FileSystem) (team : DropboxTeam)
    (args : Namespace) : option (log * outcome unit) :=
  let lg := [LogInfo (module_file ++ str " version " ++ version)] in
  let file_queue := SetQueue_init 0 in
  match list_members fuel team with
  | None => None
  | Some members_ =>
      match fill fuel team args members_ file_queue with
      | None => None
      | Some (Ends (Return file_queue')) => drain fuel fs team args file_queue' lg
      | Some (Ends (Raise e)) => Some (lg, Ends (Raise e))
      | Some Hangs => Some (lg, Hangs)
      end
  end.
End Hashing.

(** ** parse_args *)

(** The namespace [parser.parse_args()] returns: an option that was not
    given is None, except [maxsize] and [loglevel], which have defaults. *)
Record RawArgs := mk_RawArgs {
  raw_since : option pystr;
  raw_maxsize : Z;
  raw_out : option pystr;
  raw_loglevel : Z;
  raw_token : option pystr;
  raw_limit : option Z
}.

(** What [parse_args] reads from the process: [today] is
    [date.today().strftime('%Y-%m-%d')], [now] is [datetime.now()],
    [strptime s] is [datetime.strptime(s, '%Y-%m-%d')] and [environ] is the
    lookup in [os.environ]. *)
Record Process := mk_Process {
  today : pystr;
  now : Z;
  strptime : pystr -> result Z;
  environ : pystr -> option pystr
}.

(** [args.since] after [parse_args]: None, a str that was not converted, or
    a datetime. *)
Inductive since_value :=
| SinceNone
| SinceStr (s : pystr)
| SinceDatetime (d : Z).

Record ParsedArgs := mk_ParsedArgs {
  p_since : since_value;
  p_maxsize : Z;
  p_out : pystr;
  p_loglevel : Z;
  p_token : pystr;
  p_limit : option Z
}.

(** The truth value of an optional str: None and the empty str are false. *)
Definition truthy (o : option pystr) : bool :=
  match o with
  | Some (_ :: _) => true
  | _ => false
  end.

Definition text_of (o : option pystr) : pystr :=
  match o with
  | Some s => s
  | None => []
  end.

(** [argparse.ArgumentError(msg)]: the constructor takes the argument and
    the message, so the call with the message alone raises TypeError before
    any ArgumentError exists. *)
Definition ArgumentError_call : exception :=
  mk_exception TypeError
    (str "__init__() missing 1 required positional argument: 'message'").

Definition parse_args (ps : Process) (raw : RawArgs) : result ParsedArgs :=
  (* Create an output directory name if one was not given *)
  let out_ :=
    if negb (truthy (raw_out raw)) then
      let dated := today ps ++ str " backup" in
      if truthy (raw_since raw)
      then dated ++ str " since " ++ text_of (raw_since raw)
      else dated
    else text_of (raw_out raw) in
  (* Convert since to a datetime object *)
  let since_ : result since_value :=
    if truthy (raw_since raw) then
      match strptime ps (text_of (raw_since raw)) with
      | Raise e => Raise e
      | Return d => if now ps <? d then Raise ArgumentError_call
                    else Return (SinceDatetime d)
      end
    else
      Return (match raw_since raw with
              | Some s => SinceStr s
              | None => SinceNone
              end) in
  match since_ with
  | Raise e => Raise e
  | Return since' =>
      let token_ : result pystr :=
        if negb (truthy (raw_token raw)) then
          match environ ps (str "DROPBOX_TEAM_TOKEN") with
          | Some t => Return t
          | None => Raise ArgumentError_call
          end
        else Return (text_of (raw_token raw)) in
      match token_ with
      | Raise e => Raise e
      | Return token' =>
          Return (mk_ParsedArgs since' (raw_maxsize raw) out_ (raw_loglevel raw)
                                token' (raw_limit raw))
      end
  end.

(** The namespace the rest of the program reads, when [since] is None or a
    datetime. *)
Definition namespace_of (p : ParsedArgs) : option Namespace :=
  match p_since p with
  | SinceNone =>
      Some (mk_Namespace None (p_maxsize p) (p_out p) (p_loglevel p)
                         (p_token p) (p_limit p))
  | SinceDatetime d =>
      Some (mk_Namespace (Some d) (p_maxsize p) (p_out p) (p_loglevel p)
                         (p_token p) (p_limit p))
  | SinceStr _ => None
  end.

(** [should_download(file, args)] on the arguments [parse_args] returns,
    whose [since] may be the str that was not converted: the test
    [args.since is not None] passes for it and the comparison of a str with
    a datetime raises TypeError. *)
Definition should_download_parsed (entry : Metadata) (p : ParsedArgs)
    : result bool :=
  match entry with
  | MFolder _ =>
      (* file.size *)
      Raise (mk_exception AttributeError (str "size"))
  | MFile f =>
      match float_of_int (p_maxsize p) with
      | Raise e => Raise e
      | Return m =>
          if int_gt_float (size f) (float_mul 1000000 m)
          then Return false
          else
            match p_since p with
            | SinceNone => Return true
            | SinceDatetime s =>
                if server_modified f <? s then Return false else Return true
            | SinceStr _ =>
                Raise (mk_exception TypeError
                         (str "'>' not supported between instances of 'str' and 'datetime.datetime'"))
            end
      end
  end.

(** ** setup_logging *)

(** A logging handler: an object with an identity; a FileHandler has a file
    name, a StreamHandler has none. *)
Record Handler := mk_Handler {
  hid : nat;
  handler_file : option pystr;
  handler_level : Z;
  handler_formatter : option pystr
}.

(** The logger named backup, and the identity of the next object created. *)
Record Logging := mk_Logging {
  logger_level : Z;
  handlers : list Handler;
  next_hid : nat
}.

Definition LOGGING_FILENAME : pystr := str "backup.log".

Definition handler_in (h : Handler) (hs : list Handler) : bool :=
  existsb (fun x => Nat.eqb (hid x) (hid h)) hs.

(** [hs.remove(h)]: the first element that is [h] goes. *)
Fixpoint list_remove (h : Handler) (hs : list Handler) : list Handler :=
  match hs with
  | [] => []
  | x :: rest => if Nat.eqb (hid x) (hid h) then rest else x :: list_remove h rest
  end.

(** Logger.removeHandler *)
Definition removeHandler (h : Handler) (hs : list Handler) : list Handler :=
  if handler_in h hs then list_remove h hs else hs.

(** Logger.addHandler *)
Definition addHandler (h : Handler) (hs : list Handler) : list Handler :=
  if handler_in h hs then hs else hs ++ [h].

(** [for handler in logger.handlers: logger.removeHandler(handler)]: the
    iterator holds an index into the list the body shortens; [i] is that
    index and [fuel] bounds the turns. *)
Fixpoint remove_while_iterating (fuel i : nat) (hs : list Handler)
    : list Handler :=
  match fuel with
  | O => hs
  | S fuel' =>
      match nth_error hs i with
      | None => hs
      | Some h => remove_while_iterating fuel' (S i) (removeHandler h hs)
      end
  end.

Definition setFormatter (fmt : pystr) (h : Handler) : Handler :=
  mk_Handler (hid h) (handler_file h) (handler_level h) (Some fmt).

Definition log_format : pystr :=
  str "%(asctime)s %(levelname)-8s %(name)s %(message)s".

(** [setup_logging(level)]; [open_log] is the exception the opening of the
    log file by [logging.FileHandler] raises, if any. *)
Definition setup_logging (level : Z) (open_log : option exception)
    (lg : Logging) : Logging * result unit :=
  (* Remove any existing handlers *)
  let kept :=
    remove_while_iterating (List.length (handlers lg)) 0 (handlers lg) in
  match open_log with
  | Some e => (mk_Logging level kept (next_hid lg), Raise e)
  | None =>
      let fh := mk_Handler (next_hid lg) (Some LOGGING_FILENAME) level None in
      let sh := mk_Handler (S (next_hid lg)) None level None in
      let hs := addHandler sh (addHandler fh kept) in
      (mk_Logging level (map (setFormatter log_format) hs) (S (S (next_hid lg))),
       Return tt)
  end.

(** * Properties *)

(** ** Strings *)

Lemma str_eqb_refl (a : pystr) : str_eqb a a = true.
Proof. induction a as [|x a IH]; simpl; [reflexivity|]. now rewrite N.eqb_refl. Qed.

Lemma str_eqb_eq (a b : pystr) : str_eqb a b = true <-> a = b.
Proof.
  split; [|intros ->; apply str_eqb_refl].
  revert b; induction a as [|x a IH]; intros [|y b]; simpl; try discriminate; auto.
  intros H; apply andb_prop in H as [Hx Hab].
  apply N.eqb_eq in Hx; subst. f_equal; auto.
Qed.

(** ** remove_unprintable *)

(** The ASCII code points of [string.printable]: tab to carriage return,
    and space to tilde. *)
Definition ascii_printable (c : N) : bool :=
  ((9 <=? c) && (c <=? 13) || (32 <=? c) && (c <=? 126))%N.

Lemma printable_below_128 : Forall (fun c => (c < 128)%N) pystring.printable.
Proof. repeat constructor. Qed.

Lemma char_in_printable_small :
  forallb (fun n => Bool.eqb (char_in (N.of_nat n) pystring.printable)
                             (ascii_printable (N.of_nat n)))
          (seq 0 128) = true.
Proof. vm_compute. reflexivity. Qed.

Lemma char_in_printable (c : N) :
  char_in c pystring.printable = ascii_printable c.
Proof.
  destruct (N.ltb_spec c 128) as [Hlt|Hge].
  - pose proof char_in_printable_small as H.
    rewrite forallb_forall in H.
    specialize (H (N.to_nat c)).
    rewrite N2Nat.id in H.
    apply Bool.eqb_prop, H, in_seq. lia.
  - transitivity false.
    + unfold char_in. apply not_true_is_false. intros H.
      apply existsb_exists in H as (x & Hin & Hx).
      apply N.eqb_eq in Hx; subst x.
      pose proof printable_below_128 as F.
      rewrite Forall_forall in F. specialize (F _ Hin). lia.
    + unfold ascii_printable. symmetry.
      apply orb_false_iff; split; apply andb_false_iff; right;
        apply N.leb_gt; lia.
Qed.

(** C8. For every input string, [remove_unprintable] returns the characters
    of the input that belong to the ASCII printable set (code points 9 to 13
    and 32 to 126), in their order; every character it returns is ASCII, and
    every character from code point 128 on, printable or not (an accented
    letter, a CJK character), is removed. *)
Theorem remove_unprintable_keeps_ascii_printable (text : pystr) :
  remove_unprintable text = filter ascii_printable text
  /\ Forall (fun c => (c < 128)%N) (remove_unprintable text)
  /\ (forall c, (128 <= c)%N -> ~ In c (remove_unprintable text))
  /\ remove_unprintable (str "a" ++ [233%N] ++ str "b" ++ [20013%N] ++ [7%N] ++ str "/c")
     = str "ab/c".
Proof.
  assert (E : remove_unprintable text = filter ascii_printable text).
  { unfold remove_unprintable. apply filter_ext. intros c. apply char_in_printable. }
  assert (F : Forall (fun c => (c < 128)%N) (remove_unprintable text)).
  { rewrite E. apply Forall_forall. intros c Hc.
    apply filter_In in Hc as [_ Hc]. unfold ascii_printable in Hc.
    apply orb_prop in Hc as [Hc|Hc]; apply andb_prop in Hc as [_ Hc];
      apply N.leb_le in Hc; lia. }
  repeat split; auto.
  intros c Hc Hin. rewrite Forall_forall in F. specialize (F _ Hin). lia.
Qed.

(** ** Floats *)

Lemma float_max_bound_large : 2 ^ 60 < float_max_bound.
Proof. apply Z.ltb_lt. vm_compute. reflexivity. Qed.

(** An integer whose magnitude fits 53 bits after 2^e0 is divided out is a
    double. *)
Lemma round_binary64_exact (n k e0 : Z) :
  0 <= e0 -> Z.abs n = 2 ^ e0 * k -> Z.abs n < 2 ^ (53 + e0) ->
  round_binary64 n = n.
Proof.
  intros He0 Hk Hlt. unfold round_binary64.
  set (a := Z.abs n) in *. set (e := Z.log2 a - 52).
  destruct (Z.leb_spec e 0) as [Hle|Hgt]; [reflexivity|].
  assert (Ha : 0 < a).
  { destruct (Z.eq_dec a 0) as [Ha0|Hne]; [|unfold a in *; lia].
    exfalso. subst e. rewrite Ha0 in Hgt. simpl in Hgt. lia. }
  assert (Hee : e <= e0).
  { apply Z.log2_lt_pow2 in Hlt; [|exact Ha]. unfold e. lia. }
  assert (Hmod : a mod 2 ^ e = 0).
  { rewrite Hk. replace e0 with (e + (e0 - e)) by lia.
    rewrite Z.pow_add_r by lia.
    rewrite <- Z.mul_assoc. rewrite Z.mul_comm. apply Z.mod_mul.
    apply Z.pow_nonzero; lia. }
  rewrite Z.land_ones by lia. rewrite Hmod.
  rewrite Z.shiftl_1_l.
  assert (Hhalf : 0 < 2 ^ (e - 1)) by (apply Z.pow_pos_nonneg; lia).
  replace (2 ^ (e - 1) <? 0) with false by (symmetry; apply Z.ltb_ge; lia).
  replace (0 =? 2 ^ (e - 1)) with false by (symmetry; apply Z.eqb_neq; lia).
  simpl. rewrite Z.shiftr_div_pow2, Z.shiftl_mul_pow2 by lia.
  assert (Hdiv : a = 2 ^ e * (a / 2 ^ e)).
  { pose proof (Z.div_mod a (2 ^ e)) as D. rewrite Hmod in D.
    rewrite Z.add_0_r in D. apply D. apply Z.pow_nonzero; lia. }
  rewrite (Z.mul_comm (a / 2 ^ e)). rewrite <- Hdiv.
  unfold a. rewrite Z.mul_comm. apply Z.abs_sgn.
Qed.

(** The largest [maxsize] up to which every product [1e6 * maxsize] is
    computed exactly. *)
Definition maxsize_exact_bound : Z := 576460752304.

Lemma float_of_int_exact (m : Z) :
  Z.abs m <= maxsize_exact_bound -> float_of_int m = Return m.
Proof.
  unfold maxsize_exact_bound. intros H. unfold float_of_int.
  rewrite (round_binary64_exact m (Z.abs m) 0); [| lia | lia | ].
  - pose proof float_max_bound_large.
    replace (float_max_bound <=? Z.abs m) with false; [reflexivity|].
    symmetry. apply Z.leb_gt.
    assert (2 ^ 60 = 1152921504606846976) by reflexivity. lia.
  - assert (2 ^ (53 + 0) = 9007199254740992) by reflexivity. lia.
Qed.

Lemma float_mul_1e6_exact (m : Z) :
  Z.abs m <= maxsize_exact_bound ->
  float_mul 1000000 m = Finite (1000000 * m).
Proof.
  unfold maxsize_exact_bound. intros H. unfold float_mul.
  assert (R : round_binary64 (1000000 * m) = 1000000 * m).
  { destruct (Z.eq_dec (Z.abs m) 576460752304) as [E|NE].
    - destruct (Z.abs_spec m) as [[_ A]|[_ A]]; rewrite A in E.
      + subst m. vm_compute. reflexivity.
      + replace m with (-576460752304) by lia. vm_compute. reflexivity.
    - apply (round_binary64_exact _ (15625 * Z.abs m) 6); [lia| |].
      + rewrite Z.abs_mul. change (2 ^ 6) with 64. simpl Z.abs. lia.
      + rewrite Z.abs_mul. change (2 ^ (53 + 6)) with 576460752303423488.
        simpl Z.abs. lia. }
  rewrite R.
  pose proof float_max_bound_large.
  replace (float_max_bound <=? Z.abs (1000000 * m)) with false; [reflexivity|].
  symmetry. apply Z.leb_gt.
  assert (2 ^ 60 = 1152921504606846976) by reflexivity. lia.
Qed.

(** ** should_download *)

(** The Filter Predicate in the words of the specification: reject a file
    larger than maxSizeMB * 1,000,000 bytes, then a file modified before the
    cutoff, accept the others. *)
Definition should_download_spec (f : FileMetadata) (args : Namespace) : bool :=
  if size f >? maxsize args * 1000000 then false
  else
    match since args with
    | Some s => if server_modified f <? s then false else true
    | None => true
    end.

(** A file of 576,460,752,305,000,000 bytes and a limit of 576,460,752,305
    MB: the file is exactly at the byte threshold. *)
Definition file_at_threshold : FileMetadata :=
  mk_FileMetadata (str "id:1") (str "/big.bin") 576460752305000000 0.
Definition args_large_maxsize : Namespace :=
  mk_Namespace None 576460752305 (str "out") 20 (str "t") None.

(** C5, at a file exactly at the threshold.  With maxsize = 576460752305
    the double [1e6 * maxsize] is 576460752304999936, which is 64 below the
    exact product, and a file whose size is exactly maxsize * 1,000,000 bytes
    is rejected, where the specification and the help of the option (up to
    size in MB inclusive) accept it. *)
Lemma should_download_rejects_file_at_threshold :
  size file_at_threshold = maxsize args_large_maxsize * 1000000
  /\ should_download_spec file_at_threshold args_large_maxsize = true
  /\ should_download (MFile file_at_threshold) args_large_maxsize = Return false.
Proof. vm_compute. repeat split. Qed.

(** Up to the largest [maxsize] whose product with 1e6 is computed
    exactly, 576,460,752,304 in absolute value, [should_download] is the
    filter of the specification: false when the size exceeds
    maxsize * 1,000,000 (strictly: a file exactly at the threshold passes this
    test), otherwise false when a cutoff is set and the modification time is
    strictly before it (a file modified exactly at the cutoff passes),
    otherwise true. *)
Theorem should_download_filters_by_size_then_date
    (f : FileMetadata) (args : Namespace) :
  Z.abs (maxsize args) <= maxsize_exact_bound ->
  should_download (MFile f) args = Return (should_download_spec f args)
  /\ (size f > maxsize args * 1000000 ->
      should_download (MFile f) args = Return false)
  /\ (size f = maxsize args * 1000000 -> since args = None ->
      should_download (MFile f) args = Return true)
  /\ (forall s, size f <= maxsize args * 1000000 -> since args = Some s ->
      should_download (MFile f) args = Return (negb (server_modified f <? s))).
Proof.
  intros H.
  assert (E : should_download (MFile f) args = Return (should_download_spec f args)).
  { unfold should_download, should_download_spec.
    rewrite float_of_int_exact by exact H.
    rewrite float_mul_1e6_exact by exact H.
    unfold int_gt_float. rewrite Z.gtb_ltb.
    replace (1000000 * maxsize args) with (maxsize args * 1000000) by lia.
    destruct (maxsize args * 1000000 <? size f); [reflexivity|].
    destruct (since args) as [s|]; [|reflexivity].
    destruct (server_modified f <? s); reflexivity. }
  rewrite E. unfold should_download_spec. repeat split.
  - intros Hgt. replace (size f >? maxsize args * 1000000) with true; [reflexivity|].
    symmetry. apply Z.gtb_lt. lia.
  - intros Heq Hs. rewrite Hs.
    replace (size f >? maxsize args * 1000000) with false; [reflexivity|].
    symmetry. rewrite Z.gtb_ltb. apply Z.ltb_ge. lia.
  - intros s Hle Hs. rewrite Hs.
    replace (size f >? maxsize args * 1000000) with false.
    + destruct (server_modified f <? s); reflexivity.
    + symmetry. rewrite Z.gtb_ltb. apply Z.ltb_ge. lia.
Qed.

Definition file_at_both_thresholds : FileMetadata :=
  mk_FileMetadata (str "id:F1") (str "/F1") 100000000 1700000000000000.
Definition args_default : Namespace :=
  mk_Namespace (Some 1700000000000000) 100 (str "out") 20 (str "t") None.

(** A file of exactly 100 * 1,000,000 bytes modified exactly at the cutoff,
    under the default limit of 100 MB, is accepted. *)
Lemma should_download_filters_by_size_then_date_witness :
  Z.abs (maxsize args_default) <= maxsize_exact_bound
  /\ should_download (MFile file_at_both_thresholds) args_default = Return true.
Proof.
  assert (H : Z.abs (maxsize args_default) <= maxsize_exact_bound)
    by (vm_compute; discriminate).
  split; [exact H|].
  exact (proj1 (should_download_filters_by_size_then_date file_at_both_thresholds args_default H)).
Defined.

(** ** save_file *)

Definition alice : TeamMemberInfo := mk_TeamMemberInfo (str "dbmid:alice") (str "alice").
Definition bob : TeamMemberInfo := mk_TeamMemberInfo (str "dbmid:bob") (str "bob").

Definition no_members : MembersListResult := mk_MembersListResult [] false [].
Definition empty_folder : ListFolderResult := mk_ListFolderResult [] false [].

(** A team with no member and no file, whose downloads succeed. *)
Definition team_empty : DropboxTeam :=
  mk_DropboxTeam no_members (fun _ => no_members)
                 (fun _ _ => empty_folder) (fun _ _ => empty_folder)
                 (fun _ _ _ => None).

(** The same team, whose downloads fail with an OSError that names the local
    path the download was asked to write. *)
Definition team_download_fails : DropboxTeam :=
  mk_DropboxTeam no_members (fun _ => no_members)
                 (fun _ _ => empty_folder) (fun _ _ => empty_folder)
                 (fun _ local_path _ => Some (mk_exception OSError local_path)).

(** The same team, whose downloads are interrupted from the keyboard. *)
Definition team_interrupted : DropboxTeam :=
  mk_DropboxTeam no_members (fun _ => no_members)
                 (fun _ _ => empty_folder) (fun _ _ => empty_folder)
                 (fun _ _ _ => Some (mk_exception KeyboardInterrupt [])).

Definition fs_ok : FileSystem := mk_FileSystem (fun _ => None).
Definition permission_denied : exception :=
  mk_exception PermissionError (str "[Errno 13] Permission denied").
Definition fs_read_only : FileSystem :=
  mk_FileSystem (fun _ => Some permission_denied).
Definition path_too_long : exception :=
  mk_exception FileNotFoundError (str "[WinError 3] The system cannot find the path specified").
Definition fs_path_too_long : FileSystem :=
  mk_FileSystem (fun _ => Some path_too_long).

Definition file_a_b : File :=
  mk_File (mk_FileMetadata (str "id:ab") (str "/a/b.txt") 10 0) alice.

(** The local target path in the words of the specification: the output
    root joined with the sanitized path, leading separators stripped. *)
Fixpoint lstrip_sep (p : pystr) : pystr :=
  match p with
  | c :: p' => if N.eqb c os_path.sep then lstrip_sep p' else p
  | [] => []
  end.

Definition local_path_spec (file_ : File) (root : pystr) : pystr :=
  os_path.join root
    (lstrip_sep (remove_unprintable (file_path_display (file file_)))).

Fixpoint startswith (prefix s : pystr) : bool :=
  match prefix, s with
  | [], _ => true
  | c :: prefix', d :: s' => N.eqb c d && startswith prefix' s'
  | _ :: _, [] => false
  end.

(** [path] names something strictly under the directory [root]. *)
Definition under_root (root path : pystr) : bool :=
  startswith (root ++ [os_path.sep]) path
  && negb (str_eqb path (root ++ [os_path.sep])).

(** Whenever the sanitized display path is absolute, the local path is that
    path: the root is dropped. *)
Lemma local_path_of_absolute (file_ : File) (root : pystr) :
  os_path.startswith_sep (remove_unprintable (file_path_display (file file_))) = true ->
  local_path_of file_ root = remove_unprintable (file_path_display (file file_)).
Proof. intros H. unfold local_path_of, os_path.join. now rewrite H. Qed.

(** C3, on the file /a/b.txt and the output root out.
    Whenever the sanitized display path starts with the separator, as every
    Dropbox display path does, the local path is that path and the root is
    dropped.  For /a/b.txt and out the specification's target is
    out/a/b.txt; [save_file] creates the directory /a and asks the download
    to write /a/b.txt, which is not under out (the log of the failed download
    names the path). *)
Theorem save_file_writes_outside_root :
  (forall file_ root,
      os_path.startswith_sep
        (remove_unprintable (file_path_display (file file_))) = true ->
      local_path_of file_ root
      = remove_unprintable (file_path_display (file file_)))
  /\ local_path_spec file_a_b (str "out") = str "out/a/b.txt"
  /\ local_path_of file_a_b (str "out") = str "/a/b.txt"
  /\ under_root (str "out") (local_path_spec file_a_b (str "out")) = true
  /\ under_root (str "out") (local_path_of file_a_b (str "out")) = false
  /\ os_path.dirname (local_path_of file_a_b (str "out")) = str "/a"
  /\ save_file fs_ok team_download_fails file_a_b (str "out") []
     = ([LogInfo (str "Saving /a/b.txt");
         LogException (str "Exception whilst saving /a/b.txt")
                      (mk_exception OSError (str "/a/b.txt"))],
        Return tt).
Proof.
  split; [exact local_path_of_absolute|].
  vm_compute. repeat split.
Qed.

(** What [save_file] appends to the log after the line that announces the
    file, when it returns. *)
Definition save_file_log (fs : FileSystem) (team : DropboxTeam) (file_ : File)
    (root : pystr) : log :=
  let local_path := local_path_of file_ root in
  match os_makedirs fs (os_path.dirname local_path) with
  | Some ex => [LogError (exc_str ex)]
  | None =>
      match files_download_to_file team (member file_) local_path
                                   (file_path_display (file file_)) with
      | Some ex => [LogException (str "Exception whilst saving " ++ local_path) ex]
      | None => []
      end
  end.

(** The error [os.makedirs] raises on POSIX for a path that exceeds the
    path-length limit: an OSError with errno ENAMETOOLONG, which is not a
    FileNotFoundError. *)
Definition name_too_long : exception :=
  mk_exception OSError (str "[Errno 36] File name too long").
Definition fs_name_too_long : FileSystem :=
  mk_FileSystem (fun _ => Some name_too_long).


(** The failures [save_file] gets over: [os.makedirs] succeeds, and the
    download succeeds or raises an Exception; or [os.makedirs] raises a
    FileNotFoundError. *)
Definition absorbed (fs : FileSystem) (team : DropboxTeam) (file_ : File)
    (root : pystr) : Prop :=
  match os_makedirs fs (os_path.dirname (local_path_of file_ root)) with
  | Some ex => isinstance ex FileNotFoundError = true
  | None =>
      match files_download_to_file team (member file_) (local_path_of file_ root)
                                   (file_path_display (file file_)) with
      | Some ex => isinstance ex Exception = true
      | None => True
      end
  end.



(** ** File.__eq__ and File.__hash__ *)

Lemma File___eq___File (x y : File) :
  File___eq__ x (PyFile y) = Return (str_eqb (id (file x)) (id (file y))).
Proof. reflexivity. Qed.

(** What the [except AttributeError] clause makes of the outcome of the
    comparison: an AttributeError becomes False, another exception goes
    on. *)
Definition except_AttributeError (r : result bool) : result bool :=
  match r with
  | Return b => Return b
  | Raise e => if isinstance e AttributeError then Return false else Raise e
  end.

(** A property whose getter fails with a TypeError. *)
Definition getter_error : exception :=
  mk_exception TypeError (str "unsupported operand type(s)").

(** An object whose [file] is such a property, one whose [file] has such
    an [id], and one whose [file.id] cannot be compared. *)
Definition object_with_failing_file : pyobj :=
  PyObject (with_property (str "file") getter_error no_attrs).
Definition object_with_failing_id : pyobj :=
  PyObject (with_attr (str "file")
              (PyObject (with_property (str "id") getter_error no_attrs))
              no_attrs).
Definition object_with_failing_eq : pyobj :=
  PyObject (with_attr (str "file")
              (PyObject (with_attr (str "id") (PyRaisesOnEq getter_error) no_attrs))
              no_attrs).



(** ** SetQueue *)

Definition file_id (f : File) : pystr := id (file f).

(** Some element of [l] has the identifier [k]. *)
Definition has_id (k : pystr) (l : list File) : bool :=
  existsb (fun x => str_eqb (file_id x) k) l.

(** The number of elements of [l] with the identifier [k]. *)
Definition count_id (k : pystr) (l : list File) : nat :=
  List.length (filter (fun x => str_eqb (file_id x) k) l).

Lemma existsb_pointwise {A} (f g : A -> bool) (l : list A) :
  (forall x, f x = g x) -> existsb f l = existsb g l.
Proof. intros H. induction l as [|x l IH]; simpl; [reflexivity|]. now rewrite H, IH. Qed.

(** The operations of a run: pushes and pops by the one thread. *)
Inductive queue_op :=
| Push (f : File)
| Pop.

Section SetQueueProperties.
Variable hash_str : pystr -> Z.

(** A queue and the entries [get] has delivered so far. *)
Definition config : Type := SetQueue * list File.

(** One operation; [None] when it blocks, which ends the run. *)
Definition step (o : queue_op) (c : config) : option config :=
  match o with
  | Push f =>
      match Queue_put hash_str (fst c) f with
      | Ends (Return q') => Some (q', snd c)
      | _ => None
      end
  | Pop =>
      match Queue_get (fst c) with
      | Ends (Return (item, q')) => Some (q', snd c ++ [item])
      | _ => None
      end
  end.

Fixpoint run (ops : list queue_op) (c : config) : config :=
  match ops with
  | [] => c
  | o :: rest =>
      match step o c with
      | Some c' => run rest c'
      | None => c
      end
  end.

Lemma set_contains_has_id (s : pyset) (item : File) :
  set_contains hash_str s item = has_id (file_id item) s.
Proof.
  unfold set_contains, has_id. apply existsb_pointwise. intros x.
  unfold File_eqb. rewrite File___eq___File. fold (file_id x) (file_id item).
  destruct (str_eqb (file_id x) (file_id item)) eqn:E.
  - apply str_eqb_eq in E. unfold File___hash__. fold (file_id x) (file_id item).
    rewrite E, Z.eqb_refl. reflexivity.
  - apply andb_false_r.
Qed.

Lemma count_id_app (k : pystr) (l1 l2 : list File) :
  count_id k (l1 ++ l2) = (count_id k l1 + count_id k l2)%nat.
Proof. unfold count_id. now rewrite filter_app, length_app. Qed.

(** Every identifier is accounted for once if it was ever accepted, and
    not at all otherwise. *)
Definition accounted (c : config) : Prop :=
  forall k, (count_id k (snd c) + count_id k (queue (fst c)))%nat
            = if has_id k (all_items (fst c)) then 1%nat else 0%nat.

Lemma SetQueue__put_seen (q : SetQueue) (f : File) :
  has_id (file_id f) (all_items q) = true -> SetQueue__put hash_str q f = q.
Proof.
  intros H. unfold SetQueue__put. now rewrite set_contains_has_id, H.
Qed.

Lemma SetQueue__put_new (q : SetQueue) (f : File) :
  has_id (file_id f) (all_items q) = false ->
  SetQueue__put hash_str q f
  = mk_SetQueue (queue_maxsize q) (queue q ++ [f]) (f :: all_items q).
Proof.
  intros H. unfold SetQueue__put, set_add.
  now rewrite set_contains_has_id, H.
Qed.

Lemma step_accounted (o : queue_op) (c c' : config) :
  accounted c -> step o c = Some c' -> accounted c'.
Proof.
  destruct c as [q delivered]. intros A. destruct o as [f|]; simpl.
  - unfold Queue_put.
    destruct (_ && _); [discriminate|]. intros [= <-].
    destruct (has_id (file_id f) (all_items q)) eqn:S.
    + now rewrite SetQueue__put_seen.
    + rewrite SetQueue__put_new by exact S.
      intros k. simpl. specialize (A k). simpl in A.
      rewrite count_id_app.
      destruct (str_eqb (file_id f) k) eqn:E.
      * apply str_eqb_eq in E. subst k. rewrite S in A.
        unfold count_id at 3. simpl. rewrite str_eqb_refl. simpl. lia.
      * unfold count_id at 3. simpl. rewrite E. simpl. lia.
  - unfold Queue_get. destruct (queue q) as [|item rest] eqn:Q; [discriminate|].
    intros [= <-]. intros k. simpl. specialize (A k). simpl in A.
    rewrite Q in A. rewrite count_id_app.
    unfold count_id in *. simpl in *.
    destruct (str_eqb (file_id item) k); simpl in *; lia.
Qed.

Lemma run_accounted (ops : list queue_op) (c : config) :
  accounted c -> accounted (run ops c).
Proof.
  revert c. induction ops as [|o ops IH]; intros c A; simpl; [exact A|].
  destruct (step o c) as [c'|] eqn:S; [|exact A].
  apply IH. eapply step_accounted; eauto.
Qed.

Lemma step_maxsize (o : queue_op) (c c' : config) :
  step o c = Some c' -> queue_maxsize (fst c') = queue_maxsize (fst c).
Proof.
  destruct c as [q delivered]. destruct o as [f|]; simpl.
  - unfold Queue_put. destruct (_ && _); [discriminate|]. intros [= <-].
    simpl. unfold SetQueue__put. destruct (negb _); reflexivity.
  - unfold Queue_get. destruct (queue q); [discriminate|]. now intros [= <-].
Qed.

Lemma run_maxsize (ops : list queue_op) (c : config) :
  queue_maxsize (fst (run ops c)) = queue_maxsize (fst c).
Proof.
  revert c. induction ops as [|o ops IH]; intros c; simpl; [reflexivity|].
  destruct (step o c) as [c'|] eqn:S; [|reflexivity].
  rewrite IH. eapply step_maxsize; eauto.
Qed.

Lemma step_seen (o : queue_op) (c c' : config) (k : pystr) :
  step o c = Some c' ->
  has_id k (all_items (fst c)) = true -> has_id k (all_items (fst c')) = true.
Proof.
  destruct c as [q delivered]. destruct o as [f|]; simpl.
  - unfold Queue_put. destruct (_ && _); [discriminate|]. intros [= <-].
    simpl. intros H.
    destruct (has_id (file_id f) (all_items q)) eqn:S.
    + now rewrite SetQueue__put_seen.
    + rewrite SetQueue__put_new by exact S. simpl. rewrite H. apply orb_true_r.
  - unfold Queue_get. destruct (queue q); [discriminate|]. now intros [= <-].
Qed.

Lemma run_seen (ops : list queue_op) (c : config) (k : pystr) :
  has_id k (all_items (fst c)) = true ->
  has_id k (all_items (fst (run ops c))) = true.
Proof.
  revert c. induction ops as [|o ops IH]; intros c H; simpl; [exact H|].
  destruct (step o c) as [c'|] eqn:S; [|exact H].
  apply IH. eapply step_seen; eauto.
Qed.

(** Popping as many times as there are queued entries delivers them all,
    oldest first. *)
Lemma run_pops (q : SetQueue) (delivered : list File) :
  run (repeat Pop (List.length (queue q))) (q, delivered)
  = (mk_SetQueue (queue_maxsize q) [] (all_items q), delivered ++ queue q).
Proof.
  destruct q as [m items s]. simpl. revert delivered.
  induction items as [|item rest IH]; intros delivered; simpl.
  - now rewrite app_nil_r.
  - rewrite IH. now rewrite <- app_assoc.
Qed.

(** C1. In every run of pushes and pops on the queue that [list_and_save]
    creates: an identifier that was accepted is carried by exactly one
    entry among those delivered and those still queued, and no entry
    carries any other identifier, so pop never delivers two entries with
    one identifier, whatever their members; a push of an entry whose
    identifier was accepted before changes nothing and raises nothing; a
    push of an entry with a new identifier queues it and records the
    identifier; an identifier once recorded stays recorded through every
    later operation; and once the queue is drained, every accepted
    identifier has been delivered exactly once. *)
Theorem SetQueue_delivers_each_id_once (ops : list queue_op) :
  let c := run ops (SetQueue_init 0, []) in
  let q := fst c in
  let delivered := snd c in
  (forall k, (count_id k delivered + count_id k (queue q))%nat
             = if has_id k (all_items q) then 1%nat else 0%nat)
  /\ (forall k, (count_id k delivered <= 1)%nat)
  /\ (forall f, has_id (file_id f) (all_items q) = true ->
                SetQueue__put hash_str q f = q
                /\ Queue_put hash_str q f = Ends (Return q))
  /\ (forall f, has_id (file_id f) (all_items q) = false ->
                exists q', Queue_put hash_str q f = Ends (Return q')
                           /\ queue q' = queue q ++ [f]
                           /\ has_id (file_id f) (all_items q') = true)
  /\ (forall k later, has_id k (all_items q) = true ->
                      has_id k (all_items (fst (run later c))) = true)
  /\ (let drained := run (repeat Pop (List.length (queue q))) c in
      queue (fst drained) = []
      /\ forall k, count_id k (snd drained)
                   = if has_id k (all_items q) then 1%nat else 0%nat).
Proof.
  intros c q delivered.
  assert (A : accounted c).
  { apply run_accounted. intros k. reflexivity. }
  assert (M : queue_maxsize q = 0).
  { unfold q, c. now rewrite run_maxsize. }
  assert (P : forall f, Queue_put hash_str q f
                        = Ends (Return (SetQueue__put hash_str q f))).
  { intros f. unfold Queue_put. now rewrite M. }
  split; [exact A|].
  split.
  { intros k. specialize (A k). fold q delivered in A.
    destruct (has_id k (all_items q)); lia. }
  split.
  { intros f H. rewrite P. rewrite SetQueue__put_seen by exact H. now split. }
  split.
  { intros f H. eexists. split; [apply P|].
    rewrite SetQueue__put_new by exact H. simpl.
    split; [reflexivity|]. unfold file_id at 1 2. now rewrite str_eqb_refl. }
  split.
  { intros k later H. now apply run_seen. }
  cbv zeta.
  replace (run (repeat Pop (List.length (queue q))) c)
    with (run (repeat Pop (List.length (queue q))) (q, delivered))
    by (unfold q, delivered; now rewrite <- surjective_pairing).
  rewrite run_pops. simpl. split; [reflexivity|].
  intros k. rewrite count_id_app. apply A.
Qed.
End SetQueueProperties.

(** ** list_members *)

(** The pages of the member listing: the first answer, then the answer to
    the cursor of the page before. *)
Fixpoint members_page (team : DropboxTeam) (n : nat) : MembersListResult :=
  match n with
  | O => team_members_list team
  | S n' =>
      team_members_list_continue team (members_cursor (members_page team n'))
  end.

(** Pages [from], ..., [from + count - 1]. *)
Definition members_pages (team : DropboxTeam) (from count : nat)
    : list MembersListResult :=
  map (members_page team) (seq from count).

Lemma first_page_without_more (p : nat -> bool) (n : nat) :
  p n = false ->
  exists last, (last <= n)%nat /\ p last = false
               /\ forall k, (k < last)%nat -> p k = true.
Proof.
  intros Hn.
  assert (H : forall m, (exists last, (last <= m)%nat /\ p last = false
                                       /\ forall k, (k < last)%nat -> p k = true)
                        \/ (forall k, (k <= m)%nat -> p k = true)).
  { induction m as [|m [(last & Hle & Hl & Hb)|Hall]].
    - destruct (p 0%nat) eqn:E.
      + right. intros k Hk. now replace k with 0%nat by lia.
      + left. exists 0%nat. repeat split; auto. intros k Hk. lia.
    - left. exists last. repeat split; auto.
    - destruct (p (S m)) eqn:E.
      + right. intros k Hk.
        destruct (Nat.eq_dec k (S m)) as [->|Hne]; [exact E|apply Hall; lia].
      + left. exists (S m). repeat split; auto.
        intros k Hk. apply Hall. lia. }
  destruct (H n) as [Hex|Hall]; [exact Hex|].
  rewrite Hall in Hn by lia. discriminate.
Qed.

Lemma list_members_loop_pages (team : DropboxTeam) (d extra j : nat) :
  (forall k, (j <= k < j + d)%nat -> members_has_more (members_page team k) = true) ->
  members_has_more (members_page team (j + d)) = false ->
  list_members_loop (d + extra) team (members_page team j)
  = Some (List.concat (map members (members_pages team (S j) d)),
          map members_cursor (members_pages team j d)).
Proof.
  revert j. induction d as [|d IH]; intros j Hmore Hlast.
  - rewrite Nat.add_0_r in Hlast.
    destruct extra; simpl; rewrite Hlast; reflexivity.
  - cbn [Nat.add list_members_loop].
    rewrite (Hmore j) by lia.
    change (team_members_list_continue team (members_cursor (members_page team j)))
      with (members_page team (S j)).
    rewrite (IH (S j)).
    + reflexivity.
    + intros k Hk. apply Hmore. lia.
    + now replace (S j + d)%nat with (j + S d)%nat by lia.
Qed.

(** C6. When some page of the member listing has its has-more flag false,
    there is a first such page [last]; with fuel for [last] requests
    [list_members] terminates, the requests it makes are exactly the
    continuations with the cursors of pages 0 to [last - 1], each of which
    has the flag true, in that order, and it yields the members of pages 0
    to [last], page after page, each page in the order the service gave:
    every member of every page once, none skipped, none repeated. *)
Theorem list_members_follows_cursor (team : DropboxTeam) (n : nat) :
  members_has_more (members_page team n) = false ->
  exists last,
    (last <= n)%nat
    /\ members_has_more (members_page team last) = false
    /\ (forall k, (k < last)%nat -> members_has_more (members_page team k) = true)
    /\ forall extra,
         list_members_trace (last + extra) team
         = Some (List.concat (map members (members_pages team 0 (S last))),
                 map members_cursor (members_pages team 0 last))
         /\ list_members (last + extra) team
            = Some (List.concat (map members (members_pages team 0 (S last)))).
Proof.
  intros Hn.
  destruct (first_page_without_more
              (fun k => members_has_more (members_page team k)) n Hn)
    as (last & Hle & Hlast & Hbefore).
  exists last. repeat split; auto.
  - unfold list_members_trace.
    change (team_members_list team) with (members_page team 0).
    rewrite (list_members_loop_pages team last extra 0).
    + reflexivity.
    + intros k Hk. apply Hbefore. lia.
    + exact Hlast.
  - unfold list_members, list_members_trace.
    change (team_members_list team) with (members_page team 0).
    rewrite (list_members_loop_pages team last extra 0).
    + reflexivity.
    + intros k Hk. apply Hbefore. lia.
    + exact Hlast.
Qed.

Definition carol : TeamMemberInfo := mk_TeamMemberInfo (str "dbmid:carol") (str "carol").

(** A team whose members come in two pages. *)
Definition team_two_pages : DropboxTeam :=
  mk_DropboxTeam
    (mk_MembersListResult [alice; bob] true (str "c1"))
    (fun c => if str_eqb c (str "c1")
              then mk_MembersListResult [carol] false (str "c2")
              else mk_MembersListResult [] true c)
    (fun _ _ => empty_folder) (fun _ _ => empty_folder)
    (fun _ _ _ => None).

(** The two pages of [team_two_pages]. *)
Lemma list_members_follows_cursor_witness :
  members_has_more (members_page team_two_pages 1) = false
  /\ exists last,
    (last <= 1)%nat
    /\ members_has_more (members_page team_two_pages last) = false
    /\ (forall k, (k < last)%nat ->
                  members_has_more (members_page team_two_pages k) = true)
    /\ forall extra,
         list_members_trace (last + extra) team_two_pages
         = Some (List.concat (map members (members_pages team_two_pages 0 (S last))),
                 map members_cursor (members_pages team_two_pages 0 last))
         /\ list_members (last + extra) team_two_pages
            = Some (List.concat (map members (members_pages team_two_pages 0 (S last)))).
Proof.
  split; [reflexivity|].
  exact (list_members_follows_cursor team_two_pages 1 eq_refl).
Defined.

Example list_members_two_pages :
  list_members_trace 1 team_two_pages = Some ([alice; bob; carol], [str "c1"]).
Proof. reflexivity. Qed.

(** ** list_files and the limit *)

(** The same configuration with another per-member limit. *)
Definition with_limit (args : Namespace) (lim : option Z) : Namespace :=
  mk_Namespace (since args) (maxsize args) (out args) (loglevel args)
               (token args) lim.

Lemma should_download_with_limit (entry : Metadata) (args : Namespace)
    (lim : option Z) :
  should_download entry (with_limit args lim) = should_download entry args.
Proof. reflexivity. Qed.

Section ListFilesExt.
Variable team : DropboxTeam.
Variable member_ : TeamMemberInfo.
Variables args1 args2 : Namespace.
Variables recurse1 recurse2 : pystr -> option (gen File).
Hypothesis same_filter :
  forall entry, should_download entry args1 = should_download entry args2.
Hypothesis same_recursion : forall p, recurse1 p = recurse2 p.

Lemma list_entry_ext (entry : Metadata) :
  list_entry member_ args1 recurse1 entry = list_entry member_ args2 recurse2 entry.
Proof.
  unfold list_entry. rewrite same_filter.
  destruct (should_download entry args2) as [[|]|e]; try reflexivity.
  now rewrite same_recursion.
Qed.

Lemma list_entries_ext (es : list Metadata) :
  list_entries member_ args1 recurse1 es = list_entries member_ args2 recurse2 es.
Proof.
  induction es as [|entry rest IH]; simpl; [reflexivity|].
  now rewrite list_entry_ext, IH.
Qed.

Lemma list_more_ext (fuel : nat) (folder_list : ListFolderResult) :
  list_more team member_ args1 recurse1 fuel folder_list
  = list_more team member_ args2 recurse2 fuel folder_list.
Proof.
  revert folder_list. induction fuel as [|fuel IH]; intros folder_list; simpl.
  - reflexivity.
  - destruct (has_more folder_list); [|reflexivity].
    now rewrite list_entries_ext, IH.
Qed.

Lemma list_files_body_ext (fuel : nat) (dir_ : pystr) :
  list_files_body team member_ args1 recurse1 fuel dir_
  = list_files_body team member_ args2 recurse2 fuel dir_.
Proof. unfold list_files_body. now rewrite list_entries_ext, list_more_ext. Qed.
End ListFilesExt.

Lemma limit_length {A} (n : Z) (g : gen A) :
  0 <= n -> (List.length (fst (limit (Some n) g)) <= Z.to_nat n)%nat.
Proof.
  intros Hn. destruct g as [items fin]. simpl.
  destruct (Nat.ltb_spec (Z.to_nat n) (List.length items)); simpl.
  - rewrite length_firstn. lia.
  - exact H.
Qed.

(** C10. The files an invocation of [list_files] yields, top-level or
    recursive, do not depend on the configured limit: two configurations
    that differ only in the limit give the same sequence (and the same way of
    finishing) on every team, member and folder.  The bound of the
    truncation is the constant 10 of the decorator: every invocation is the
    undecorated generator cut after 10 items, and yields at most 10. *)
Theorem list_files_ignores_configured_limit
    (fuel : nat) (team : DropboxTeam) (member_ : TeamMemberInfo)
    (args : Namespace) (lim1 lim2 : option Z) (dir_ : pystr) :
  list_files fuel team member_ (with_limit args lim1) dir_
  = list_files fuel team member_ (with_limit args lim2) dir_
  /\ list_files (S fuel) team member_ (with_limit args lim1) dir_
     = option_map (limit (Some 10))
         (list_files_body team member_ (with_limit args lim1)
            (list_files fuel team member_ (with_limit args lim1)) fuel dir_)
  /\ match list_files fuel team member_ (with_limit args lim1) dir_ with
     | Some (items, _) => (List.length items <= 10)%nat
     | None => True
     end.
Proof.
  split; [|split].
  - revert dir_. induction fuel as [|fuel IH]; intros dir_; simpl; [reflexivity|].
    f_equal. apply list_files_body_ext; [reflexivity|exact IH].
  - reflexivity.
  - destruct fuel as [|fuel]; simpl; [exact I|].
    destruct (list_files_body _ _ _ _ _ _) as [g|]; simpl; [|exact I].
    pose proof (limit_length 10 g ltac:(lia)) as H.
    unfold list_files_limit.
    destruct (limit (Some 10) g) as [items fin]. exact H.
Qed.

(** Twelve small files /f01 ... /f12 in the root folder of every member. *)
Definition small_file (n : N) : FileMetadata :=
  mk_FileMetadata (str "id:" ++ [48 + n / 10; 48 + n mod 10]%N)
                  (str "/f" ++ [48 + n / 10; 48 + n mod 10]%N) 1000 0.

Definition root_with (files : list FileMetadata) : DropboxTeam :=
  mk_DropboxTeam
    (mk_MembersListResult [alice] false [])
    (fun _ => no_members)
    (fun _ dir_ => match dir_ with
                   | [] => mk_ListFolderResult (map MFile files) false []
                   | _ => empty_folder
                   end)
    (fun _ _ => empty_folder)
    (fun _ _ _ => None).

Definition team_three_files : DropboxTeam :=
  root_with (map small_file [1; 2; 3]%N).
Definition team_twelve_files : DropboxTeam :=
  root_with (map small_file [1; 2; 3; 4; 5; 6; 7; 8; 9; 10; 11; 12]%N).

Definition args_limit (lim : option Z) : Namespace :=
  mk_Namespace None 100 (str "out") 20 (str "t") lim.

(** C4, on three and on twelve files.  With a configured limit of 2 and three
    qualifying files, [list_files] yields the three files, not the first two;
    with a configured limit of 12, or none, and twelve qualifying files it
    yields the first ten. *)
Theorem list_files_cap_is_not_the_configured_one :
  list_files 1 team_three_files alice (args_limit (Some 2)) []
  = Some (map (fun n => mk_File (small_file n) alice) [1; 2; 3]%N, Return tt)
  /\ list_files 1 team_twelve_files alice (args_limit (Some 12)) []
     = Some (map (fun n => mk_File (small_file n) alice)
                 [1; 2; 3; 4; 5; 6; 7; 8; 9; 10]%N, Return tt)
  /\ list_files 1 team_twelve_files alice (args_limit None) []
     = Some (map (fun n => mk_File (small_file n) alice)
                 [1; 2; 3; 4; 5; 6; 7; 8; 9; 10]%N, Return tt).
Proof. vm_compute. repeat split. Qed.

(** ** The drain loop *)

(** The lines [save_file] logs for the files of a queue whose directories
    and downloads all succeed. *)
Definition saving_lines (items : list File) : log :=
  map (fun f => LogInfo (str "Saving "
                           ++ remove_unprintable (file_path_display (file f))))
      items.

Definition downloads_succeed (team : DropboxTeam) : DropboxTeam :=
  mk_DropboxTeam (team_members_list team) (team_members_list_continue team)
                 (files_list_folder team) (files_list_folder_continue team)
                 (fun _ _ _ => None).

Lemma save_file_succeeds (team : DropboxTeam) (f : File) (root : pystr) (lg : log) :
  save_file fs_ok (downloads_succeed team) f root lg
  = (lg ++ saving_lines [f], Return tt).
Proof. reflexivity. Qed.

(** One turn of the loop on a queue that is not empty. *)
Lemma drain_step (fuel : nat) (fs : FileSystem) (team : DropboxTeam)
    (args : Namespace) (m : Z) (f : File) (rest : list File) (s : pyset) (lg : log) :
  drain (S fuel) fs team args (mk_SetQueue m (f :: rest) s) lg
  = match save_file fs team f (out args) lg with
    | (lg', Return _) => drain fuel fs team args (mk_SetQueue m rest s) lg'
    | (lg', Raise e) =>
        if isinstance e Empty
        then Some (lg' ++ [LogInfo (str "File queue is empty")], Ends (Return tt))
        else Some (lg', Ends (Raise e))
    end.
Proof.
  cbn [drain Queue_get queue queue_maxsize all_items].
  destruct (save_file fs team f (out args) lg) as [lg' [u|e]]; reflexivity.
Qed.

(** After the last queued file the loop waits in [get] for ever. *)
Lemma drain_hangs (team : DropboxTeam) (args : Namespace)
    (m : Z) (items : list File) (s : pyset) (lg : log) (extra : nat) :
  drain (S (List.length items) + extra) fs_ok (downloads_succeed team) args
        (mk_SetQueue m items s) lg
  = Some (lg ++ saving_lines items, Hangs).
Proof.
  revert lg. induction items as [|f rest IH]; intros lg.
  - simpl. now rewrite app_nil_r.
  - cbn [List.length Nat.add]. rewrite drain_step, save_file_succeeds.
    cbn [Nat.add] in IH. rewrite IH.
    now rewrite <- app_assoc.
Qed.

(** queue.Empty is an Exception: what is not an Exception is not Empty. *)
Lemma not_Exception_not_Empty (e : exception) :
  isinstance e Exception = false -> isinstance e Empty = false.
Proof. destruct e as [[] msg]; vm_compute; congruence. Qed.

(** An exception leaves [save_file] only from [os.makedirs], or when it is
    not an Exception. *)
Lemma save_file_raises (fs : FileSystem) (team : DropboxTeam) (f : File)
    (root : pystr) (lg lg' : log) (e : exception) :
  save_file fs team f root lg = (lg', Raise e) ->
  (exists p, os_makedirs fs p = Some e) \/ isinstance e Exception = false.
Proof.
  unfold save_file.
  destruct (os_makedirs fs _) as [ex|] eqn:Edir.
  - destruct (isinstance ex FileNotFoundError); [discriminate|].
    intros [= _ <-]. left. eexists. exact Edir.
  - destruct (files_download_to_file team _ _ _) as [ex|]; [|discriminate].
    destruct (isinstance ex Exception) eqn:Ex; [discriminate|].
    intros [= _ <-]. now right.
Qed.

(** The loop leaves through [except queue.Empty] only if [os.makedirs]
    raised a queue.Empty. *)
Lemma drain_never_returns (fs : FileSystem) (team : DropboxTeam)
    (args : Namespace) (fuel : nat) (q : SetQueue) (lg lg' : log) :
  (forall p e, os_makedirs fs p = Some e -> isinstance e Empty = false) ->
  drain fuel fs team args q lg <> Some (lg', Ends (Return tt)).
Proof.
  intros Hfs. revert q lg. induction fuel as [|fuel IH]; intros q lg; [discriminate|].
  destruct q as [m items s]. destruct items as [|f rest].
  - simpl. discriminate.
  - rewrite drain_step.
    destruct (save_file fs team f (out args) lg) as [lg1 [u|e]] eqn:Es.
    + apply IH.
    + assert (He : isinstance e Empty = false).
      { destruct (save_file_raises _ _ _ _ _ _ _ Es) as [(p & Hp)|Hne].
        - eapply Hfs; eauto.
        - now apply not_Exception_not_Empty. }
      rewrite He. discriminate.
Qed.

(** A team of one member with one small file. *)
Definition team_one_file : DropboxTeam := root_with [small_file 1].

(** C2, on every queue.  [Queue.get()] blocks on an empty queue and
    never raises queue.Empty.  For every queue content, with directories
    and downloads that succeed, the drain loop attempts every queued file in
    order and then waits in [get] for ever, without logging that the queue
    is empty.  On no team, file system (unless its [os.makedirs] raises
    queue.Empty) and fuel does [list_and_save] return: it raises or waits
    for ever.  On a team without members, and on a team of one member with
    one file, it waits for ever after the last download. *)
Theorem drain_never_sees_empty_queue (hash_str : pystr -> Z) :
  (forall m s, Queue_get (mk_SetQueue m [] s) = Hangs)
  /\ (forall team args q lg extra,
      drain (S (List.length (queue q)) + extra) fs_ok (downloads_succeed team)
            args q lg
      = Some (lg ++ saving_lines (queue q), Hangs))
  /\ (forall fs team args fuel lg',
         (forall p e, os_makedirs fs p = Some e -> isinstance e Empty = false) ->
         list_and_save hash_str fuel fs team args <> Some (lg', Ends (Return tt)))
  /\ (forall extra,
         list_and_save hash_str (1 + extra) fs_ok team_empty (args_limit None)
         = Some ([LogInfo (str "backup.py version 2.0.0")], Hangs))
  /\ (forall extra,
         list_and_save hash_str (2 + extra) fs_ok team_one_file (args_limit None)
         = Some ([LogInfo (str "backup.py version 2.0.0");
                  LogInfo (str "Saving /f01")], Hangs)).
Proof.
  split; [|split; [|split; [|split]]].
  - reflexivity.
  - intros team args [m items s] lg extra. apply drain_hangs.
  - intros fs team args fuel lg' Hfs. unfold list_and_save.
    destruct (list_members fuel team) as [members_|]; [|discriminate].
    destruct (fill hash_str fuel team args members_ (SetQueue_init 0))
      as [[[q|e]|]|]; try discriminate.
    now apply drain_never_returns.
  - intros extra. reflexivity.
  - intros extra.
    unfold list_and_save.
    change (list_members (2 + extra) team_one_file) with (Some [alice]).
    cbv iota beta.
    assert (F : fill hash_str (2 + extra) team_one_file (args_limit None) [alice]
                     (SetQueue_init 0)
                = Some (Ends (Return
                    (mk_SetQueue 0 [mk_File (small_file 1) alice]
                                   [mk_File (small_file 1) alice])))).
    { destruct extra; reflexivity. }
    rewrite F.
    change team_one_file with (downloads_succeed team_one_file).
    change (2 + extra)%nat
      with (S (List.length [mk_File (small_file 1) alice]) + extra)%nat.
    rewrite drain_hangs. reflexivity.
Qed.

(** * Further properties *)

(** ** remove_unprintable, further *)

Lemma remove_unprintable_app (a b : pystr) :
  remove_unprintable (a ++ b) = remove_unprintable a ++ remove_unprintable b.
Proof. unfold remove_unprintable. apply filter_app. Qed.

Lemma filter_fixpoint {A} (p : A -> bool) (l : list A) :
  filter p l = l <-> forallb p l = true.
Proof.
  induction l as [|x l IH]; simpl; [tauto|].
  destruct (p x) eqn:E; simpl.
  - rewrite <- IH. split; [now intros [= ->]|now intros ->].
  - split; [|discriminate]. intros H.
    assert (L : (List.length (filter p l) <= List.length l)%nat) by apply filter_length_le.
    rewrite H in L. simpl in L. lia.
Qed.

Lemma remove_unprintable_filter (text : pystr) :
  remove_unprintable text = filter ascii_printable text.
Proof. unfold remove_unprintable. apply filter_ext. intros c. apply char_in_printable. Qed.

(** X1. [remove_unprintable] returns its argument unchanged exactly when
    every character of the argument is in [string.printable]; it is
    idempotent. *)
Theorem remove_unprintable_fixpoints (text : pystr) :
  (remove_unprintable text = text <-> forallb ascii_printable text = true)
  /\ remove_unprintable (remove_unprintable text) = remove_unprintable text.
Proof.
  split.
  - rewrite remove_unprintable_filter. apply filter_fixpoint.
  - rewrite !remove_unprintable_filter. apply filter_fixpoint.
    apply forallb_forall. intros c Hc. now apply filter_In in Hc.
Qed.

(** X2. Characters outside [string.printable] do not count in the local
    path: two files whose display paths differ by one such character,
    anywhere in the path, are saved to the same local path. *)
Theorem save_file_paths_collide
    (f1 f2 : File) (root a b : pystr) (c : N) :
  ascii_printable c = false ->
  file_path_display (file f1) = a ++ b ->
  file_path_display (file f2) = a ++ c :: b ->
  file_path_display (file f1) <> file_path_display (file f2)
  /\ local_path_of f1 root = local_path_of f2 root.
Proof.
  intros Hc H1 H2. split.
  - rewrite H1, H2. intros E. apply app_inv_head in E.
    assert (L : List.length b = List.length (c :: b)) by now rewrite <- E.
    simpl in L. lia.
  - unfold local_path_of. rewrite H1, H2. f_equal.
    rewrite !remove_unprintable_app. f_equal.
    rewrite !remove_unprintable_filter. simpl. now rewrite Hc.
Qed.

Definition file_with_path (k p : pystr) : File :=
  mk_File (mk_FileMetadata k p 10 0) alice.

(** /caf.txt and the same name with an e acute before the dot. *)
Lemma save_file_paths_collide_witness :
  local_path_of (file_with_path (str "id:1") (str "/caf.txt")) (str "out")
  = local_path_of (file_with_path (str "id:2") (str "/caf" ++ 233%N :: str ".txt"))
                  (str "out").
Proof.
  exact (proj2 (save_file_paths_collide
                  (file_with_path (str "id:1") (str "/caf.txt"))
                  (file_with_path (str "id:2") (str "/caf" ++ 233%N :: str ".txt"))
                  (str "out") (str "/caf") (str ".txt") 233%N
                  eq_refl eq_refl eq_refl)).
Defined.

(** ** should_download, further *)

(** X3. A file that passes the filter keeps passing when it is smaller or
    as large and modified later or at the same time: for every
    configuration, rounding of the threshold included. *)
Theorem should_download_monotone (f f' : FileMetadata) (args : Namespace) :
  should_download (MFile f) args = Return true ->
  size f' <= size f ->
  server_modified f <= server_modified f' ->
  should_download (MFile f') args = Return true.
Proof.
  unfold should_download. intros H Hs Hm.
  destruct (float_of_int (maxsize args)) as [m|e]; [|discriminate].
  destruct (int_gt_float (size f) (float_mul 1000000 m)) eqn:G; [discriminate|].
  assert (G' : int_gt_float (size f') (float_mul 1000000 m) = false).
  { unfold int_gt_float in *. destruct (float_mul 1000000 m) as [z|neg]; [|exact G].
    apply Z.ltb_ge in G. apply Z.ltb_ge. lia. }
  rewrite G'.
  destruct (since args) as [s|]; [|reflexivity].
  destruct (server_modified f <? s) eqn:D; [discriminate|].
  apply Z.ltb_ge in D.
  replace (server_modified f' <? s) with false; [reflexivity|].
  symmetry. apply Z.ltb_ge. lia.
Qed.

(** A file of 5 bytes modified a microsecond after the cutoff, against the
    file at both thresholds. *)
Lemma should_download_monotone_witness :
  should_download (MFile (mk_FileMetadata (str "id:s") (str "/s") 5 1700000000000001))
                  args_default = Return true.
Proof.
  exact (should_download_monotone file_at_both_thresholds
           (mk_FileMetadata (str "id:s") (str "/s") 5 1700000000000001)
           args_default eq_refl ltac:(vm_compute; discriminate)
           ltac:(vm_compute; discriminate)).
Defined.

(** Rounding does not bring a magnitude of 2^1024 or more back into the
    range of the doubles. *)
Lemma round_binary64_large (n : Z) :
  float_max_bound <= Z.abs n -> float_max_bound <= Z.abs (round_binary64 n).
Proof.
  unfold float_max_bound. intros H. unfold round_binary64.
  set (a := Z.abs n) in *.
  assert (P1024 : 0 < 2 ^ 1024) by (apply Z.pow_pos_nonneg; lia).
  assert (Ha : 0 < a) by lia.
  assert (HL : 1024 <= Z.log2 a) by (apply Z.log2_le_pow2; lia).
  set (L := Z.log2 a) in *. set (e := L - 52).
  destruct (Z.leb_spec e 0) as [Hle|Hgt]; [unfold e in Hle; lia|].
  set (q := Z.shiftr a e).
  match goal with
  | |- context [if ?c then q + 1 else q] => set (q' := if c then q + 1 else q)
  end.
  assert (Hq : 2 ^ 52 <= q).
  { unfold q. rewrite Z.shiftr_div_pow2 by lia.
    assert (E : 2 ^ 52 = 2 ^ L / 2 ^ e).
    { replace 52 with (L - e) by (unfold e; lia).
      apply Z.pow_sub_r; unfold e; lia. }
    rewrite E. apply Z.div_le_mono; [apply Z.pow_pos_nonneg; lia|].
    apply Z.log2_spec. exact Ha. }
  assert (Hq' : q <= q').
  { unfold q'. match goal with |- context [if ?c then _ else _] => destruct c end; lia. }
  assert (Pe : 0 < 2 ^ e) by (apply Z.pow_pos_nonneg; lia).
  rewrite Z.abs_mul, Z.shiftl_mul_pow2 by lia.
  assert (Hs : Z.abs (Z.sgn n) = 1).
  { unfold a in Ha. destruct n; simpl in *; lia. }
  rewrite Hs, Z.mul_1_l, Z.abs_eq by nia.
  assert (E2 : 2 ^ L = 2 ^ 52 * 2 ^ e).
  { rewrite <- Z.pow_add_r by (unfold e; lia). f_equal. unfold e. lia. }
  assert (M : 2 ^ 1024 <= 2 ^ L) by (apply Z.pow_le_mono_r; lia).
  nia.
Qed.

(** X4. The errors and results of [should_download] on the arguments
    [parse_args] returns.  On a folder, which has no size, it raises
    AttributeError whatever the arguments.  On a file it raises OverflowError
    when [maxsize] is 2^1024 or more in absolute value, too large for a
    float.  When [maxsize] is at most 576,460,752,304 in absolute value it
    returns false for a file larger than maxsize * 1,000,000 bytes; for
    another file it returns true without a since date, the result of the
    date test with one, and raises TypeError when since is a str, as the
    empty text of the option is left.  Where since is None or a datetime it
    is [should_download] on the namespace. *)
Theorem should_download_errors (entry : Metadata) (p : ParsedArgs) :
  (forall args, namespace_of p = Some args ->
     should_download_parsed entry p = should_download entry args)
  /\ match entry with
     | MFolder _ =>
         exists msg,
           should_download_parsed entry p = Raise (mk_exception AttributeError msg)
     | MFile f =>
         (float_max_bound <= Z.abs (p_maxsize p) ->
          exists msg,
            should_download_parsed entry p = Raise (mk_exception OverflowError msg))
         /\ (Z.abs (p_maxsize p) <= maxsize_exact_bound ->
             if size f >? p_maxsize p * 1000000
             then should_download_parsed entry p = Return false
             else
               match p_since p with
               | SinceNone => should_download_parsed entry p = Return true
               | SinceDatetime s =>
                   should_download_parsed entry p
                   = Return (negb (server_modified f <? s))
               | SinceStr _ =>
                   exists msg,
                     should_download_parsed entry p
                     = Raise (mk_exception TypeError msg)
               end)
     end.
Proof.
  split.
  - intros args H. unfold namespace_of in H.
    destruct entry as [f|d]; [|reflexivity].
    unfold should_download_parsed, should_download.
    destruct (p_since p) as [|t|s]; try discriminate; injection H as <-; reflexivity.
  - destruct entry as [f|d]; [|eexists; reflexivity].
    unfold should_download_parsed. split.
    + intros H. apply round_binary64_large in H. unfold float_of_int.
      apply Z.leb_le in H. rewrite H. eexists; reflexivity.
    + intros H. rewrite float_of_int_exact, float_mul_1e6_exact by exact H.
      unfold int_gt_float. rewrite Z.gtb_ltb.
      replace (1000000 * p_maxsize p) with (p_maxsize p * 1000000) by lia.
      destruct (p_maxsize p * 1000000 <? size f); [reflexivity|].
      destruct (p_since p) as [|t|s]; [reflexivity|eexists; reflexivity|].
      destruct (server_modified f <? s); reflexivity.
Qed.

(** ** limit, further *)

(** X5. The decorator cuts a generator to a prefix: the items it yields are
    the first [n] items, all of them when there are at most [n], and it
    finishes as the generator does unless it cut.  Decorating twice is
    decorating once with the smaller limit. *)
Theorem limit_prefix_and_nesting {A} (n m : Z) (g : gen A) :
  fst (limit (Some n) g) = firstn (Z.to_nat n) (fst g)
  /\ (if (Z.to_nat n <? List.length (fst g))%nat
      then snd (limit (Some n) g) = Return tt
      else limit (Some n) g = g)
  /\ limit (Some n) (limit (Some m) g) = limit (Some (Z.min n m)) g.
Proof.
  destruct g as [items fin]. cbn [limit fst snd].
  assert (T : Z.to_nat (Z.min n m) = Nat.min (Z.to_nat n) (Z.to_nat m)) by lia.
  split; [|split].
  - destruct (Nat.ltb_spec (Z.to_nat n) (List.length items)); simpl; [reflexivity|].
    symmetry. now apply firstn_all2.
  - destruct (Nat.ltb_spec (Z.to_nat n) (List.length items)); reflexivity.
  - rewrite T.
    destruct (Nat.ltb_spec (Z.to_nat m) (List.length items)) as [Hm|Hm].
    + cbn [limit]. rewrite length_firstn.
      destruct (Nat.ltb_spec (Z.to_nat n) (Nat.min (Z.to_nat m) (List.length items)))
        as [Hn|Hn].
      * rewrite firstn_firstn.
        replace (Nat.min (Z.to_nat n) (Z.to_nat m)) with (Z.to_nat n) by lia.
        destruct (Nat.ltb_spec (Z.to_nat n) (List.length items)); [reflexivity|lia].
      * replace (Nat.min (Z.to_nat n) (Z.to_nat m)) with (Z.to_nat m) by lia.
        destruct (Nat.ltb_spec (Z.to_nat m) (List.length items)); [reflexivity|lia].
    + cbn [limit].
      destruct (Nat.ltb_spec (Z.to_nat n) (List.length items)) as [Hn|Hn].
      * replace (Nat.min (Z.to_nat n) (Z.to_nat m)) with (Z.to_nat n) by lia.
        destruct (Nat.ltb_spec (Z.to_nat n) (List.length items)); [reflexivity|lia].
      * destruct (Nat.ltb_spec (Nat.min (Z.to_nat n) (Z.to_nat m)) (List.length items));
          [lia|reflexivity].
Qed.

(** ** list_files, further *)

(** The walk without the decorator on the recursive calls. *)
Fixpoint list_files_undecorated (fuel : nat) (team : DropboxTeam)
    (member_ : TeamMemberInfo) (args : Namespace) (dir_ : pystr)
    : option (gen File) :=
  match fuel with
  | O => None
  | S fuel' =>
      list_files_body team member_ args
        (list_files_undecorated fuel' team member_ args) fuel' dir_
  end.

(** Every item a generator yields satisfies [Q]. *)
Definition yields_only (Q : File -> Prop) (og : option (gen File)) : Prop :=
  match og with
  | Some (items, _) => Forall Q items
  | None => True
  end.

Lemma gen_then_yields_only (Q : File -> Prop) (a b : option (gen File)) :
  yields_only Q a -> yields_only Q b -> yields_only Q (gen_then a b).
Proof.
  destruct a as [[xs [u|e]]|], b as [[ys fin]|]; simpl; auto.
  intros Ha Hb. apply Forall_app. now split.
Qed.

Lemma In_firstn {A} (n : nat) (l : list A) (x : A) :
  In x (firstn n l) -> In x l.
Proof.
  revert l. induction n as [|n IH]; intros [|y l]; simpl; try tauto.
  intros [H|H]; [now left|right; now apply IH].
Qed.

Lemma limit_yields_only (Q : File -> Prop) (lim : option Z) (og : option (gen File)) :
  yields_only Q og -> yields_only Q (option_map (limit lim) og).
Proof.
  destruct og as [[items fin]|]; simpl; auto. intros H.
  destruct lim as [n|].
  - destruct (_ <? _)%nat; simpl; auto.
    apply Forall_forall. intros f Hf. rewrite Forall_forall in H.
    apply H. eapply In_firstn; eauto.
  - destruct items; simpl; auto.
Qed.

Section ListFilesInvariant.
Variable team : DropboxTeam.
Variable member_ : TeamMemberInfo.
Variable args : Namespace.

(** A file of [member_] that passes the filter. *)
Definition qualifies (f : File) : Prop :=
  member f = member_ /\ should_download (MFile (file f)) args = Return true.

Lemma list_entry_qualifies (recurse : pystr -> option (gen File)) (entry : Metadata) :
  (forall p, yields_only qualifies (recurse p)) ->
  yields_only qualifies (list_entry member_ args recurse entry).
Proof.
  intros Hrec. unfold list_entry.
  destruct (should_download entry args) as [[|]|e] eqn:E.
  - destruct entry as [f|p]; simpl; [|constructor].
    constructor; [|constructor]. split; [reflexivity|exact E].
  - simpl. constructor.
  - destruct (isinstance e AttributeError); [apply Hrec|simpl; constructor].
Qed.

Lemma list_entries_qualifies (recurse : pystr -> option (gen File)) (es : list Metadata) :
  (forall p, yields_only qualifies (recurse p)) ->
  yields_only qualifies (list_entries member_ args recurse es).
Proof.
  intros Hrec. induction es as [|entry rest IH]; simpl; [constructor|].
  apply gen_then_yields_only; [now apply list_entry_qualifies|exact IH].
Qed.

Lemma list_more_qualifies (recurse : pystr -> option (gen File)) (fuel : nat)
    (folder_list : ListFolderResult) :
  (forall p, yields_only qualifies (recurse p)) ->
  yields_only qualifies (list_more team member_ args recurse fuel folder_list).
Proof.
  intros Hrec. revert folder_list.
  induction fuel as [|fuel IH]; intros folder_list; simpl;
    destruct (has_more folder_list); simpl; try constructor.
  apply gen_then_yields_only; [now apply list_entries_qualifies|apply IH].
Qed.

Lemma list_files_qualifies (fuel : nat) (dir_ : pystr) :
  yields_only qualifies (list_files fuel team member_ args dir_).
Proof.
  revert dir_. induction fuel as [|fuel IH]; intros dir_; simpl; [exact I|].
  apply limit_yields_only. unfold list_files_body.
  apply gen_then_yields_only;
    [now apply list_entries_qualifies|now apply list_more_qualifies].
Qed.
End ListFilesInvariant.

(** X6. Every item [list_files] yields is a file entry of some listed
    folder that passed [should_download], paired with the member the call was
    made for: no folder and no rejected file is yielded, however deep the
    walk went. *)
Theorem list_files_yields_qualifying_files
    (fuel : nat) (team : DropboxTeam) (member_ : TeamMemberInfo)
    (args : Namespace) (dir_ : pystr) :
  match list_files fuel team member_ args dir_ with
  | Some (items, _) =>
      Forall (fun f => member f = member_
                       /\ should_download (MFile (file f)) args = Return true)
             items
  | None => True
  end.
Proof. exact (list_files_qualifies team member_ args fuel dir_). Qed.

Lemma float_of_int_raises_OverflowError (n : Z) (e : exception) :
  float_of_int n = Raise e -> exc_type e = OverflowError.
Proof.
  unfold float_of_int. destruct (_ <=? _); [|discriminate]. now intros [= <-].
Qed.

(** Two generators that return and agree on their first ten items, or two
    loops out of fuel. *)
Definition same10 (a b : option (gen File)) : Prop :=
  match a, b with
  | None, None => True
  | Some (xs, Return _), Some (ys, Return _) => firstn 10 xs = firstn 10 ys
  | _, _ => False
  end.

Lemma firstn_app_same {A} (n : nat) (xs ys xs' ys' : list A) :
  firstn n xs = firstn n ys -> firstn n xs' = firstn n ys' ->
  firstn n (xs ++ xs') = firstn n (ys ++ ys').
Proof.
  intros H H'. rewrite !firstn_app.
  assert (L : Nat.min n (List.length xs) = Nat.min n (List.length ys)).
  { rewrite <- !length_firstn. now rewrite H. }
  rewrite H. f_equal.
  destruct (Nat.le_gt_cases n (List.length xs)) as [Hle|Hgt].
  - replace (n - List.length xs)%nat with 0%nat by lia.
    replace (n - List.length ys)%nat with 0%nat by lia. reflexivity.
  - assert (List.length ys = List.length xs) by lia.
    replace (n - List.length ys)%nat with (n - List.length xs)%nat by lia.
    replace (firstn (n - List.length xs) xs')
      with (firstn (n - List.length xs) (firstn n xs'))
      by (rewrite firstn_firstn; f_equal; lia).
    replace (firstn (n - List.length xs) ys')
      with (firstn (n - List.length xs) (firstn n ys'))
      by (rewrite firstn_firstn; f_equal; lia).
    now rewrite H'.
Qed.

Lemma gen_then_same10 (a b a' b' : option (gen File)) :
  same10 a b -> same10 a' b' -> same10 (gen_then a a') (gen_then b b').
Proof.
  destruct a as [[xs [u|e]]|], b as [[ys [v|e']]|]; cbn [same10 gen_then];
    try tauto.
  destruct a' as [[xs' [u'|e1]]|], b' as [[ys' [v'|e2]]|]; cbn [same10 gen_then];
    try tauto.
  apply firstn_app_same.
Qed.

Lemma same10_refl_returning (items : list File) (u : unit) :
  same10 (Some (items, Return u)) (Some (items, Return u)).
Proof. reflexivity. Qed.

Lemma same10_limit_left (a b : option (gen File)) :
  same10 a b -> same10 (option_map (limit (Some 10)) a) b.
Proof.
  destruct a as [[xs [u|e]]|], b as [[ys [v|e']]|];
    cbn [same10 option_map limit]; try tauto.
  intros H. change (Z.to_nat 10) with 10%nat.
  destruct (_ <? _)%nat; cbn [same10]; [|exact H].
  now rewrite firstn_firstn.
Qed.

Lemma limit_returning (n : nat) (items : list File) :
  limit (Some (Z.of_nat n)) (items, Return tt) = (firstn n items, Return tt).
Proof.
  cbn [limit]. rewrite Nat2Z.id.
  destruct (Nat.ltb_spec n (List.length items)); [reflexivity|].
  now rewrite firstn_all2.
Qed.

Lemma same10_limit_eq (a b : option (gen File)) :
  same10 a b ->
  option_map (limit (Some 10)) a = option_map (limit (Some 10)) b.
Proof.
  destruct a as [[xs [[]|e]]|], b as [[ys [[]|e']]|];
    cbn [same10 option_map]; try tauto.
  intros H. change 10 with (Z.of_nat 10).
  rewrite !limit_returning. now rewrite H.
Qed.

(** A generator that yields nothing and returns or raises [e0]. *)
Definition silent (e0 : exception) (og : option (gen File)) : Prop :=
  match og with
  | Some (items, fin) => items = [] /\ (fin = Return tt \/ fin = Raise e0)
  | None => True
  end.

Lemma gen_then_silent (e0 : exception) (a b : option (gen File)) :
  silent e0 a -> silent e0 b -> silent e0 (gen_then a b).
Proof.
  destruct a as [[xs [u|e]]|], b as [[ys fin]|]; simpl; auto.
  intros [-> _] [-> H]. auto.
Qed.

Lemma limit_silent (e0 : exception) (og : option (gen File)) :
  silent e0 og -> option_map (limit (Some 10)) og = og.
Proof. destruct og as [[items fin]|]; simpl; auto. now intros [-> _]. Qed.

Section ListFilesDecoration.
Variable team : DropboxTeam.
Variable member_ : TeamMemberInfo.
Variable args : Namespace.

Section NoOverflow.
Variable m : Z.
Hypothesis fits : float_of_int (maxsize args) = Return m.
Variables r1 r2 : pystr -> option (gen File).
Hypothesis r12 : forall p, same10 (r1 p) (r2 p).

Lemma list_entry_same10 (entry : Metadata) :
  same10 (list_entry member_ args r1 entry) (list_entry member_ args r2 entry).
Proof.
  unfold list_entry. destruct entry as [f|p].
  - unfold should_download. rewrite fits.
    destruct (int_gt_float _ _); [reflexivity|].
    destruct (since args) as [s|]; [|reflexivity].
    destruct (_ <? s); reflexivity.
  - simpl. apply r12.
Qed.

Lemma list_entries_same10 (es : list Metadata) :
  same10 (list_entries member_ args r1 es) (list_entries member_ args r2 es).
Proof.
  induction es as [|entry rest IH]; simpl; [reflexivity|].
  apply gen_then_same10; [apply list_entry_same10|exact IH].
Qed.

Lemma list_more_same10 (fuel : nat) (folder_list : ListFolderResult) :
  same10 (list_more team member_ args r1 fuel folder_list)
         (list_more team member_ args r2 fuel folder_list).
Proof.
  revert folder_list. induction fuel as [|fuel IH]; intros folder_list; simpl;
    destruct (has_more folder_list); simpl; try reflexivity; try exact I.
  apply gen_then_same10; [apply list_entries_same10|apply IH].
Qed.

Lemma list_files_body_same10 (fuel : nat) (dir_ : pystr) :
  same10 (list_files_body team member_ args r1 fuel dir_)
         (list_files_body team member_ args r2 fuel dir_).
Proof.
  unfold list_files_body.
  apply gen_then_same10; [apply list_entries_same10|apply list_more_same10].
Qed.
End NoOverflow.

Lemma list_files_same10 (m : Z) (fuel : nat) (dir_ : pystr) :
  float_of_int (maxsize args) = Return m ->
  same10 (list_files fuel team member_ args dir_)
         (list_files_undecorated fuel team member_ args dir_).
Proof.
  intros fits. revert dir_. induction fuel as [|fuel IH]; intros dir_; simpl;
    [exact I|].
  apply same10_limit_left. eapply list_files_body_same10; eauto.
Qed.

Section Overflow.
Variable e0 : exception.
Hypothesis overflows : float_of_int (maxsize args) = Raise e0.
Variable r : pystr -> option (gen File).
Hypothesis r_silent : forall p, silent e0 (r p).

Lemma list_entry_silent (entry : Metadata) :
  silent e0 (list_entry member_ args r entry).
Proof.
  unfold list_entry. destruct entry as [f|p].
  - unfold should_download. rewrite overflows.
    unfold isinstance.
    rewrite (float_of_int_raises_OverflowError _ _ overflows).
    simpl. auto.
  - simpl. apply r_silent.
Qed.

Lemma list_entries_silent (es : list Metadata) :
  silent e0 (list_entries member_ args r es).
Proof.
  induction es as [|entry rest IH]; simpl; [auto|].
  apply gen_then_silent; [apply list_entry_silent|exact IH].
Qed.

Lemma list_more_silent (fuel : nat) (folder_list : ListFolderResult) :
  silent e0 (list_more team member_ args r fuel folder_list).
Proof.
  revert folder_list. induction fuel as [|fuel IH]; intros folder_list; simpl;
    destruct (has_more folder_list); simpl; auto.
  apply gen_then_silent; [apply list_entries_silent|apply IH].
Qed.

Lemma list_files_body_silent (fuel : nat) (dir_ : pystr) :
  silent e0 (list_files_body team member_ args r fuel dir_).
Proof.
  unfold list_files_body.
  apply gen_then_silent; [apply list_entries_silent|apply list_more_silent].
Qed.
End Overflow.

Lemma list_files_silent (e0 : exception) (fuel : nat) (dir_ : pystr) :
  float_of_int (maxsize args) = Raise e0 ->
  silent e0 (list_files fuel team member_ args dir_)
  /\ list_files fuel team member_ args dir_
     = list_files_undecorated fuel team member_ args dir_.
Proof.
  intros overflows. revert dir_.
  induction fuel as [|fuel IH]; intros dir_; simpl; [auto|].
  assert (S1 : silent e0 (list_files_body team member_ args
                            (list_files fuel team member_ args) fuel dir_)).
  { apply list_files_body_silent; [exact overflows|]. intros p. apply IH. }
  rewrite (limit_silent e0) by exact S1.
  split; [exact S1|].
  apply list_files_body_ext; [reflexivity|]. intros p. apply IH.
Qed.
End ListFilesDecoration.

(** In the model, where every listing answers, the decorated walk is the
    walk with undecorated recursive calls, cut once. *)
Lemma list_files_cut_once
    (fuel : nat) (team : DropboxTeam) (member_ : TeamMemberInfo)
    (args : Namespace) (dir_ : pystr) :
  list_files fuel team member_ args dir_
  = option_map (limit (Some 10))
      (list_files_undecorated fuel team member_ args dir_).
Proof.
  destruct (float_of_int (maxsize args)) as [m|e0] eqn:F.
  - destruct fuel as [|fuel]; simpl; [reflexivity|].
    apply same10_limit_eq. eapply list_files_body_same10; eauto.
    intros p. eapply list_files_same10; eauto.
  - destruct (list_files_silent team member_ args e0 fuel dir_ F) as [S1 E].
    rewrite <- E. symmetry. eapply limit_silent; eauto.
Qed.


(** A folder /d of twelve files, listed before a file of the root. *)
Definition team_nested : DropboxTeam :=
  mk_DropboxTeam
    (mk_MembersListResult [alice] false [])
    (fun _ => no_members)
    (fun _ dir_ =>
       if str_eqb dir_ [] then
         mk_ListFolderResult [MFolder (str "/d"); MFile (small_file 13)] false []
       else if str_eqb dir_ (str "/d") then
         mk_ListFolderResult
           (map (fun n => MFile (small_file n))
                [1; 2; 3; 4; 5; 6; 7; 8; 9; 10; 11; 12]%N) false []
       else empty_folder)
    (fun _ _ => empty_folder)
    (fun _ _ _ => None).


(** ** The queue and the two phases, further *)

(** The items that are not in [seen] and do not repeat an identifier of an
    earlier item: discovery order minus duplicates. *)
Fixpoint first_by_id (seen items : list File) : list File :=
  match items with
  | [] => []
  | f :: rest =>
      if has_id (file_id f) seen then first_by_id seen rest
      else f :: first_by_id (f :: seen) rest
  end.

(** The first item with the identifier [k]. *)
Definition find_id (k : pystr) (items : list File) : option File :=
  find (fun f => str_eqb (file_id f) k) items.

Lemma has_id_false_neq (k : pystr) (f : File) (seen : list File) :
  has_id k seen = false -> has_id (file_id f) seen = true ->
  str_eqb (file_id f) k = false.
Proof.
  intros Hk Hf. destruct (str_eqb (file_id f) k) eqn:E; [|reflexivity].
  apply str_eqb_eq in E. congruence.
Qed.

Lemma first_by_id_find (k : pystr) (seen items : list File) :
  has_id k seen = false ->
  find_id k (first_by_id seen items) = find_id k items.
Proof.
  revert seen. induction items as [|f rest IH]; intros seen Hk; simpl; [reflexivity|].
  destruct (has_id (file_id f) seen) eqn:S.
  - rewrite (has_id_false_neq k f seen Hk S). now apply IH.
  - simpl. destruct (str_eqb (file_id f) k) eqn:E; [reflexivity|].
    apply IH. simpl. now rewrite E, Hk.
Qed.

Lemma first_by_id_unseen (seen items : list File) (x : File) :
  In x (first_by_id seen items) -> has_id (file_id x) seen = false.
Proof.
  revert seen. induction items as [|f rest IH]; intros seen; simpl; [tauto|].
  destruct (has_id (file_id f) seen) eqn:S; [apply IH|].
  intros [<-|H]; [exact S|].
  apply IH in H. simpl in H. now apply orb_false_elim in H.
Qed.

Lemma first_by_id_NoDup (seen items : list File) :
  NoDup (map file_id (first_by_id seen items)).
Proof.
  revert seen. induction items as [|f rest IH]; intros seen; simpl; [constructor|].
  destruct (has_id (file_id f) seen); [apply IH|].
  simpl. constructor; [|apply IH].
  intros H. apply in_map_iff in H as (x & Hx & Hin).
  apply first_by_id_unseen in Hin. simpl in Hin.
  apply orb_false_elim in Hin as [Hin _].
  rewrite <- Hx, str_eqb_refl in Hin. discriminate.
Qed.

Section Phases.
Variable hash_str : pystr -> Z.

Lemma Queue_put_unbounded (q : SetQueue) (f : File) :
  queue_maxsize q <= 0 ->
  Queue_put hash_str q f = Ends (Return (SetQueue__put hash_str q f)).
Proof.
  intros H. unfold Queue_put.
  replace (0 <? queue_maxsize q) with false; [reflexivity|].
  symmetry. apply Z.ltb_ge. exact H.
Qed.

Lemma put_all_unbounded (q : SetQueue) (items : list File) :
  queue_maxsize q <= 0 ->
  put_all hash_str q items
  = Ends (Return (mk_SetQueue (queue_maxsize q)
                    (queue q ++ first_by_id (all_items q) items)
                    (rev (first_by_id (all_items q) items) ++ all_items q))).
Proof.
  revert q. induction items as [|f rest IH]; intros [m qu s] H; simpl.
  - now rewrite app_nil_r.
  - rewrite Queue_put_unbounded by exact H.
    destruct (has_id (file_id f) s) eqn:S.
    + rewrite SetQueue__put_seen by exact S. now rewrite IH.
    + rewrite SetQueue__put_new by exact S. rewrite IH by exact H. simpl.
      now rewrite <- !app_assoc.
Qed.

(** X9. Pushing a sequence of files on the queue [list_and_save] creates
    never blocks and leaves in the queue, oldest first, the files in the order
    pushed minus those whose identifier was pushed before: the identifiers in
    the queue are distinct, and for every identifier the queued entry is the
    first one pushed with it, so its member is the first that showed the
    file. *)
Theorem put_all_keeps_first_of_each_id (items : list File) :
  put_all hash_str (SetQueue_init 0) items
  = Ends (Return (mk_SetQueue 0 (first_by_id [] items)
                              (rev (first_by_id [] items))))
  /\ NoDup (map file_id (first_by_id [] items))
  /\ forall k, find_id k (first_by_id [] items) = find_id k items.
Proof.
  split; [|split].
  - rewrite put_all_unbounded by (simpl; lia). simpl. now rewrite app_nil_r.
  - apply first_by_id_NoDup.
  - intros k. now apply first_by_id_find.
Qed.

(** The files all members' walks yield, member after member. *)
Fixpoint discover (fuel : nat) (team : DropboxTeam) (args : Namespace)
    (members_ : list TeamMemberInfo) : option (gen File) :=
  match members_ with
  | [] => Some gen_done
  | member_ :: rest =>
      gen_then (list_files fuel team member_ args [])
               (discover fuel team args rest)
  end.

Lemma fill_discover (fuel : nat) (team : DropboxTeam) (args : Namespace)
    (members_ : list TeamMemberInfo) (q : SetQueue) :
  queue_maxsize q <= 0 ->
  fill hash_str fuel team args members_ q
  = match discover fuel team args members_ with
    | None => None
    | Some (items, Return _) =>
        Some (Ends (Return
          (mk_SetQueue (queue_maxsize q)
             (queue q ++ first_by_id (all_items q) items)
             (rev (first_by_id (all_items q) items) ++ all_items q))))
    | Some (items, Raise e) => Some (Ends (Raise e))
    end.
Proof.
  revert q. induction members_ as [|member_ rest IH]; intros q H; simpl.
  - destruct q; simpl. now rewrite app_nil_r.
  - destruct (list_files fuel team member_ args []) as [[xs fin]|]; [|reflexivity].
    rewrite put_all_unbounded by exact H.
    destruct fin as [u|e]; simpl; [|reflexivity].
    rewrite IH by exact H. simpl.
    destruct (discover fuel team args rest) as [[ys [v|e]]|]; try reflexivity.
    f_equal. f_equal. f_equal.
    assert (G : forall seen a b,
               first_by_id seen (a ++ b)
               = first_by_id seen a ++ first_by_id (rev (first_by_id seen a) ++ seen) b).
    { clear. intros seen a. revert seen.
      induction a as [|f a IHa]; intros seen b; simpl; [reflexivity|].
      destruct (has_id (file_id f) seen); [apply IHa|].
      simpl. rewrite IHa. now rewrite <- app_assoc. }
    rewrite G. rewrite rev_app_distr. now rewrite <- !app_assoc.
Qed.
End Phases.

(** What the drain loop logs for the files it attempts and gets over. *)
Definition drain_log (fs : FileSystem) (team : DropboxTeam) (root : pystr)
    (items : list File) : log :=
  flat_map
    (fun f => LogInfo (str "Saving "
                         ++ remove_unprintable (file_path_display (file f)))
              :: save_file_log fs team f root)
    items.

(** [os.makedirs] succeeds or raises FileNotFoundError for the directory of
    [f]. *)
Definition makedirs_absorbed (fs : FileSystem) (root : pystr) (f : File) : Prop :=
  match os_makedirs fs (os_path.dirname (local_path_of f root)) with
  | Some e => isinstance e FileNotFoundError = true
  | None => True
  end.

(** The download succeeds or raises an Exception, for every file. *)
Definition downloads_absorbed (team : DropboxTeam) : Prop :=
  forall member_ local_path remote e,
    files_download_to_file team member_ local_path remote = Some e ->
    isinstance e Exception = true.

Lemma save_file_absorbed (fs : FileSystem) (team : DropboxTeam) (f : File)
    (root : pystr) (lg : log) :
  makedirs_absorbed fs root f -> downloads_absorbed team ->
  save_file fs team f root lg = (lg ++ drain_log fs team root [f], Return tt).
Proof.
  unfold makedirs_absorbed, downloads_absorbed, drain_log, save_file,
    save_file_log, local_path_of.
  intros Hdir Hget. simpl. rewrite app_nil_r.
  destruct (os_makedirs fs _) as [ex|].
  - rewrite Hdir. now rewrite <- app_assoc.
  - destruct (files_download_to_file team _ _ _) as [ex|] eqn:D.
    + rewrite (Hget _ _ _ _ D). now rewrite <- app_assoc.
    + reflexivity.
Qed.

Lemma drain_log_app (fs : FileSystem) (team : DropboxTeam) (root : pystr)
    (a b : list File) :
  drain_log fs team root (a ++ b)
  = drain_log fs team root a ++ drain_log fs team root b.
Proof. unfold drain_log. apply flat_map_app. Qed.

(** The loop gets over every absorbed failure and ends waiting in [get]. *)
Lemma drain_absorbs
    (fs : FileSystem) (team : DropboxTeam) (args : Namespace)
    (m : Z) (items : list File) (s : pyset) (lg : log) (extra : nat) :
  Forall (makedirs_absorbed fs (out args)) items ->
  downloads_absorbed team ->
  drain (S (List.length items) + extra) fs team args (mk_SetQueue m items s) lg
  = Some (lg ++ drain_log fs team (out args) items, Hangs).
Proof.
  intros Hdirs Hget. revert lg.
  induction Hdirs as [|f rest Hf Hrest IH]; intros lg.
  - simpl. now rewrite app_nil_r.
  - cbn [List.length Nat.add]. rewrite drain_step.
    rewrite save_file_absorbed by assumption.
    cbn [Nat.add] in IH. rewrite IH.
    change (f :: rest) with ([f] ++ rest).
    now rewrite drain_log_app, app_assoc.
Qed.

(** X10. A failed file does not stop the drain loop.  When every failure
    of [os.makedirs] on a queued file is a FileNotFoundError and every
    failure of a download is an Exception, the loop attempts every queued
    file, oldest first, logging the attempt and the failure, and then waits
    in [get] for ever. *)
Theorem drain_attempts_every_file
    (fs : FileSystem) (team : DropboxTeam) (args : Namespace)
    (m : Z) (items : list File) (s : pyset) (lg : log) (extra : nat) :
  Forall (makedirs_absorbed fs (out args)) items ->
  downloads_absorbed team ->
  drain (S (List.length items) + extra) fs team args (mk_SetQueue m items s) lg
  = Some (lg ++ drain_log fs team (out args) items, Hangs).
Proof. exact (drain_absorbs fs team args m items s lg extra). Qed.

Definition file_c_d : File :=
  mk_File (mk_FileMetadata (str "id:cd") (str "/c/d.txt") 10 0) bob.

(** Two files whose directories are too long to create. *)
Lemma drain_attempts_every_file_witness :
  drain 3 fs_path_too_long team_download_fails (args_limit None)
        (mk_SetQueue 0 [file_a_b; file_c_d] []) []
  = Some ([LogInfo (str "Saving /a/b.txt"); LogError (exc_str path_too_long);
           LogInfo (str "Saving /c/d.txt"); LogError (exc_str path_too_long)],
          Hangs).
Proof.
  refine (drain_attempts_every_file fs_path_too_long team_download_fails
            (args_limit None) 0 [file_a_b; file_c_d] [] [] 0 _ _).
  - repeat constructor.
  - intros member_ local_path remote e H. simpl in H. now injection H as <-.
Defined.

(** X11. The first failure of [os.makedirs] that is neither a
    FileNotFoundError nor a queue.Empty ends the drain loop: the files
    before it were attempted, the exception leaves the loop, and nothing is
    logged or downloaded for the files queued behind. *)
Theorem drain_stops_at_propagating_error
    (fs : FileSystem) (team : DropboxTeam) (args : Namespace) (m : Z)
    (before after : list File) (f : File) (s : pyset) (lg : log)
    (e : exception) (extra : nat) :
  Forall (makedirs_absorbed fs (out args)) before ->
  downloads_absorbed team ->
  os_makedirs fs (os_path.dirname (local_path_of f (out args))) = Some e ->
  isinstance e FileNotFoundError = false ->
  isinstance e Empty = false ->
  drain (S (List.length before) + extra) fs team args
        (mk_SetQueue m (before ++ f :: after) s) lg
  = Some (lg ++ drain_log fs team (out args) before
             ++ [LogInfo (str "Saving "
                            ++ remove_unprintable (file_path_display (file f)))],
          Ends (Raise e)).
Proof.
  intros Hdirs Hget He Hfnf Hempty. revert lg.
  induction Hdirs as [|g rest Hg Hrest IH]; intros lg.
  - cbn [List.length Nat.add app]. rewrite drain_step.
    unfold save_file. unfold local_path_of in He. rewrite He, Hfnf, Hempty.
    reflexivity.
  - cbn [List.length Nat.add app]. rewrite drain_step.
    rewrite save_file_absorbed by assumption.
    cbn [Nat.add] in IH. rewrite IH.
    change (g :: rest) with ([g] ++ rest).
    now rewrite drain_log_app, !app_assoc.
Qed.

(** A read-only file system stops the loop at the first file. *)
Lemma drain_stops_at_propagating_error_witness :
  drain 1 fs_read_only team_empty (args_limit None)
        (mk_SetQueue 0 [file_a_b; file_c_d] []) []
  = Some ([LogInfo (str "Saving /a/b.txt")], Ends (Raise permission_denied)).
Proof.
  refine (drain_stops_at_propagating_error fs_read_only team_empty
            (args_limit None) 0 [] [file_c_d] file_a_b [] [] permission_denied 0
            _ _ _ _ _).
  - constructor.
  - intros member_ local_path remote e H. discriminate.
  - reflexivity.
  - reflexivity.
  - reflexivity.
Defined.

Section EndToEnd.
Variable hash_str : pystr -> Z.

(** X12. The whole run, when the listings end within the fuel, no walk
    raises, and the failures of directories and downloads are of the kinds
    [save_file] absorbs: [list_and_save] attempts one download for each
    distinct file identifier discovered, in discovery order and with the
    member that showed the file first, and then waits in [get] for ever. *)
Theorem list_and_save_downloads_each_id_once
    (fuel : nat) (fs : FileSystem) (team : DropboxTeam) (args : Namespace)
    (members_ : list TeamMemberInfo) (items : list File) :
  list_members fuel team = Some members_ ->
  discover fuel team args members_ = Some (items, Return tt) ->
  (List.length (first_by_id [] items) < fuel)%nat ->
  Forall (makedirs_absorbed fs (out args)) (first_by_id [] items) ->
  downloads_absorbed team ->
  list_and_save hash_str fuel fs team args
  = Some (LogInfo (str "backup.py version 2.0.0")
            :: drain_log fs team (out args) (first_by_id [] items),
          Hangs)
  /\ NoDup (map file_id (first_by_id [] items))
  /\ forall k, find_id k (first_by_id [] items) = find_id k items.
Proof.
  intros Hm Hd Hfuel Hdirs Hget.
  split; [|split; [apply first_by_id_NoDup|intros k; now apply first_by_id_find]].
  unfold list_and_save. rewrite Hm.
  rewrite fill_discover by (simpl; lia). rewrite Hd. simpl queue_maxsize.
  cbn [SetQueue_init queue all_items app]. rewrite app_nil_r.
  replace fuel
    with (S (List.length (first_by_id [] items))
          + (fuel - S (List.length (first_by_id [] items))))%nat by lia.
  rewrite drain_absorbs by assumption.
  reflexivity.
Qed.
End EndToEnd.

Definition file_x (member_ : TeamMemberInfo) : File :=
  mk_File (mk_FileMetadata (str "id:X") (str "/shared/x.txt") 10 0) member_.

Definition listing_alice : ListFolderResult :=
  mk_ListFolderResult
    [MFile (file (file_x alice)); MFile (file file_a_b)] false [].
Definition listing_bob : ListFolderResult :=
  mk_ListFolderResult
    [MFile (file file_c_d); MFile (file (file_x bob))] false [].

(** alice and bob both see the file with the identifier id:X. *)
Definition team_shared_file : DropboxTeam :=
  mk_DropboxTeam
    (mk_MembersListResult [alice; bob] false [])
    (fun _ => no_members)
    (fun member_id dir_ =>
       match dir_ with
       | [] => if str_eqb member_id (team_member_id alice) then listing_alice
               else listing_bob
       | _ => empty_folder
       end)
    (fun _ _ => empty_folder)
    (fun _ _ _ => None).

(** The shared file is downloaded once, for alice. *)
Lemma list_and_save_downloads_each_id_once_witness :
  list_and_save (fun _ => 0) 4 fs_ok team_shared_file (args_limit None)
  = Some ([LogInfo (str "backup.py version 2.0.0");
           LogInfo (str "Saving /shared/x.txt");
           LogInfo (str "Saving /a/b.txt");
           LogInfo (str "Saving /c/d.txt")], Hangs).
Proof.
  refine (proj1 (list_and_save_downloads_each_id_once (fun _ => 0) 4 fs_ok
                   team_shared_file (args_limit None) [alice; bob]
                   [file_x alice; file_a_b; mk_File (file file_c_d) bob; file_x bob]
                   _ _ _ _ _)).
  - reflexivity.
  - reflexivity.
  - simpl. lia.
  - repeat constructor.
  - intros member_ local_path remote e H. discriminate.
Defined.

(** ** File.__eq__ and File.__hash__, further *)

(** X13. On File objects [__eq__] is an equivalence relation, and two equal
    File objects have the same hash, as a set requires of its elements. *)
Theorem File_eq_equivalence_and_hash
    (hash_str : pystr -> Z) (x y z : File) :
  File___eq__ x (PyFile x) = Return true
  /\ File___eq__ x (PyFile y) = File___eq__ y (PyFile x)
  /\ (File___eq__ x (PyFile y) = Return true ->
      File___eq__ y (PyFile z) = Return true ->
      File___eq__ x (PyFile z) = Return true)
  /\ (File___eq__ x (PyFile y) = Return true ->
      File___hash__ hash_str x = File___hash__ hash_str y).
Proof.
  rewrite !File___eq___File. repeat split.
  - now rewrite str_eqb_refl.
  - f_equal. destruct (str_eqb (id (file x)) (id (file y))) eqn:E.
    + apply str_eqb_eq in E. rewrite E. symmetry. apply str_eqb_refl.
    + destruct (str_eqb (id (file y)) (id (file x))) eqn:E'; [|reflexivity].
      apply str_eqb_eq in E'. rewrite E', str_eqb_refl in E. discriminate.
  - intros [= H1] [= H2]. apply str_eqb_eq in H1, H2. f_equal.
    apply str_eqb_eq. congruence.
  - intros [= H]. apply str_eqb_eq in H. unfold File___hash__. now rewrite H.
Qed.

(** ** parse_args, properties *)

(** X14. The errors of [parse_args].  It raises what the parsing of the
    since date raises; for a since date later than now, and for a token
    that is neither given nor in the environment, it raises the TypeError of
    the call [argparse.ArgumentError(msg)], which carries neither message of
    the program.  A since date later than now is refused even when the token
    is there, and a date equal to now is not refused. *)
Theorem parse_args_errors (ps : Process) (raw : RawArgs) :
  (forall e, parse_args ps raw = Raise e ->
     (truthy (raw_since raw) = true
      /\ strptime ps (text_of (raw_since raw)) = Raise e)
     \/ (e = ArgumentError_call /\ exc_type e = TypeError))
  /\ (forall d, truthy (raw_since raw) = true ->
        strptime ps (text_of (raw_since raw)) = Return d ->
        (parse_args ps raw = Raise ArgumentError_call <->
         now ps < d
         \/ (truthy (raw_token raw) = false
             /\ environ ps (str "DROPBOX_TEAM_TOKEN") = None)))
  /\ (truthy (raw_since raw) = false ->
      (parse_args ps raw = Raise ArgumentError_call <->
       truthy (raw_token raw) = false
       /\ environ ps (str "DROPBOX_TEAM_TOKEN") = None)).
Proof.
  unfold parse_args. split; [|split].
  - intros e.
    destruct (truthy (raw_since raw)) eqn:S.
    + destruct (strptime ps (text_of (raw_since raw))) as [d|e'] eqn:P.
      * destruct (now ps <? d); [intros [= <-]; right; now split|].
        destruct (truthy (raw_token raw)); simpl; [discriminate|].
        destruct (environ ps _); [discriminate|].
        intros [= <-]; right; now split.
      * intros [= <-]. left. now split.
    + destruct (truthy (raw_token raw)); simpl; [discriminate|].
      destruct (environ ps _); [discriminate|].
      intros [= <-]; right; now split.
  - intros d S P. rewrite S, P.
    destruct (Z.ltb_spec (now ps) d) as [L|L].
    + split; [now left|reflexivity].
    + destruct (truthy (raw_token raw)); simpl.
      * split; [discriminate|]. intros [H|[H _]]; [lia|discriminate].
      * destruct (environ ps _).
        -- split; [discriminate|]. intros [H|[_ H]]; [lia|discriminate].
        -- split; [now right|reflexivity].
  - intros S. rewrite S.
    destruct (truthy (raw_token raw)); simpl.
    + split; [discriminate|]. intros [H _]; discriminate.
    + destruct (environ ps _).
      * split; [discriminate|]. intros [_ H]; discriminate.
      * split; [now split|reflexivity].
Qed.

(** X15. The since date [parse_args] returns.  Without the option it is
    None.  For a text that is not empty it is the datetime the text parses
    to, and that datetime is not later than now.  The empty text is left as
    it is: the result is then a str, neither None nor a datetime, and is not
    a configuration [should_download] can compare a file with. *)
Theorem parse_args_since (ps : Process) (raw : RawArgs) (p : ParsedArgs) :
  parse_args ps raw = Return p ->
  match raw_since raw with
  | None => p_since p = SinceNone
  | Some [] => p_since p = SinceStr [] /\ namespace_of p = None
  | Some (c :: s) =>
      exists d, strptime ps (c :: s) = Return d /\ d <= now ps
                /\ p_since p = SinceDatetime d
                /\ exists args, namespace_of p = Some args /\ since args = Some d
  end.
Proof.
  unfold parse_args.
  destruct (raw_since raw) as [[|c s]|]; simpl.
  - destruct (if negb (truthy (raw_token raw)) then _ else _) as [t|e];
      [|discriminate].
    intros [= <-]. split; reflexivity.
  - destruct (strptime ps (c :: s)) as [d|e]; [|discriminate].
    destruct (Z.ltb_spec (now ps) d) as [L|L]; [discriminate|].
    destruct (if negb (truthy (raw_token raw)) then _ else _) as [t|e];
      [|discriminate].
    intros [= <-]. exists d. repeat split; auto.
    eexists. split; reflexivity.
  - destruct (if negb (truthy (raw_token raw)) then _ else _) as [t|e];
      [|discriminate].
    now intros [= <-].
Qed.

(** A process on 4 November 2026 that parses one date and has a token in
    its environment. *)
Definition process_example : Process :=
  mk_Process (str "2026-11-04") 1793800000000000
    (fun s => if str_eqb s (str "2026-01-01") then Return 1767225600000000
              else Raise (mk_exception Exception (str "does not match format")))
    (fun k => if str_eqb k (str "DROPBOX_TEAM_TOKEN") then Some (str "secret")
              else None).

Definition raw_since_2026 : RawArgs :=
  mk_RawArgs (Some (str "2026-01-01")) 100 None 20 None None.

Lemma parse_args_since_witness :
  exists d, strptime process_example (str "2026-01-01") = Return d
            /\ d <= now process_example
            /\ p_since (mk_ParsedArgs (SinceDatetime 1767225600000000) 100
                          (str "2026-11-04 backup since 2026-01-01") 20
                          (str "secret") None)
               = SinceDatetime d
            /\ exists args,
                namespace_of (mk_ParsedArgs (SinceDatetime 1767225600000000) 100
                                (str "2026-11-04 backup since 2026-01-01") 20
                                (str "secret") None) = Some args
                /\ since args = Some d.
Proof.
  exact (parse_args_since process_example raw_since_2026 _ eq_refl).
Defined.

(** X16. The other fields [parse_args] returns.  An output directory or a
    token that is given and not empty is kept as it is; an empty one counts
    as not given.  The default directory is the date of today followed by
    backup, and by since and the text of the since option as it was typed
    when that text is not empty.  The default token is the value of
    DROPBOX_TEAM_TOKEN.  The size limit, the log level and the item limit
    are those parsed. *)
Theorem parse_args_fields (ps : Process) (raw : RawArgs) (p : ParsedArgs) :
  parse_args ps raw = Return p ->
  p_out p
  = match raw_out raw with
    | Some (c :: o) => c :: o
    | _ =>
        match raw_since raw with
        | Some (c :: s) => today ps ++ str " backup since " ++ c :: s
        | _ => today ps ++ str " backup"
        end
    end
  /\ match raw_token raw with
     | Some (c :: t) => p_token p = c :: t
     | _ => environ ps (str "DROPBOX_TEAM_TOKEN") = Some (p_token p)
     end
  /\ p_maxsize p = raw_maxsize raw
  /\ p_loglevel p = raw_loglevel raw
  /\ p_limit p = raw_limit raw.
Proof.
  unfold parse_args.
  destruct (if truthy (raw_since raw) then _ else _) as [sv|e]; [|discriminate].
  destruct (if negb (truthy (raw_token raw)) then _ else _) as [t|e] eqn:T;
    [|discriminate].
  intros [= <-]. simpl. repeat split.
  - destruct (raw_out raw) as [[|c o]|]; simpl;
      destruct (raw_since raw) as [[|c' s]|]; simpl;
      rewrite <- ?app_assoc; reflexivity.
  - destruct (raw_token raw) as [[|c t']|]; simpl in *;
      try (destruct (environ ps _); [now injection T as <-|discriminate]).
    now injection T as <-.
Qed.

Lemma parse_args_fields_witness :
  p_out (mk_ParsedArgs (SinceDatetime 1767225600000000) 100
           (str "2026-11-04 backup since 2026-01-01") 20 (str "secret") None)
  = str "2026-11-04 backup since 2026-01-01"
  /\ environ process_example (str "DROPBOX_TEAM_TOKEN") = Some (str "secret")
  /\ 100 = raw_maxsize raw_since_2026
  /\ 20 = raw_loglevel raw_since_2026
  /\ None = raw_limit raw_since_2026.
Proof.
  exact (parse_args_fields process_example raw_since_2026 _ eq_refl).
Defined.

(** ** setup_logging, properties *)

(** The elements at the odd positions 1, 3, 5, ... *)
Fixpoint odd_positions {A} (l : list A) : list A :=
  match l with
  | _ :: y :: rest => y :: odd_positions rest
  | _ => []
  end.

Lemma handler_in_iff (h : Handler) (hs : list Handler) :
  handler_in h hs = true <-> In (hid h) (map hid hs).
Proof.
  unfold handler_in. rewrite existsb_exists, in_map_iff.
  split; intros (x & H1 & H2).
  - exists x. apply Nat.eqb_eq in H2. now split.
  - exists x. split; [exact H2|]. now apply Nat.eqb_eq.
Qed.

Lemma removeHandler_middle (pre post : list Handler) (h : Handler) :
  ~ In (hid h) (map hid pre) ->
  removeHandler h (pre ++ h :: post) = pre ++ post.
Proof.
  intros Hpre. unfold removeHandler.
  replace (handler_in h (pre ++ h :: post)) with true.
  - induction pre as [|x pre IH]; simpl.
    + now rewrite Nat.eqb_refl.
    + simpl in Hpre. destruct (Nat.eqb_spec (hid x) (hid h)) as [E|E]; [tauto|].
      f_equal. apply IH. tauto.
  - symmetry. apply handler_in_iff. rewrite map_app. apply in_or_app.
    right. now left.
Qed.

Lemma remove_while_iterating_odd (fuel : nat) (pre l : list Handler) :
  NoDup (map hid (pre ++ l)) ->
  (List.length l <= fuel)%nat ->
  remove_while_iterating fuel (List.length pre) (pre ++ l)
  = pre ++ odd_positions l.
Proof.
  revert pre l. induction fuel as [|fuel IH]; intros pre l Hnd Hlen.
  - destruct l; [|simpl in Hlen; lia]. reflexivity.
  - destruct l as [|h l]; cbn [remove_while_iterating].
    + rewrite app_nil_r. rewrite (proj2 (nth_error_None pre (List.length pre)));
        [now rewrite app_nil_r|lia].
    + rewrite nth_error_app2, Nat.sub_diag by lia. cbn [nth_error].
      assert (Hpre : ~ In (hid h) (map hid pre)).
      { rewrite map_app in Hnd. simpl in Hnd.
        apply NoDup_remove_2 in Hnd. intros H. apply Hnd. apply in_or_app. now left. }
      rewrite removeHandler_middle by exact Hpre.
      assert (Hnd' : NoDup (map hid (pre ++ l))).
      { rewrite map_app in *. simpl in Hnd. now apply NoDup_remove_1 in Hnd. }
      destruct l as [|y l].
      * cbn [odd_positions]. rewrite !app_nil_r.
        destruct fuel; cbn [remove_while_iterating]; [reflexivity|].
        rewrite (proj2 (nth_error_None pre (S (List.length pre)))) by lia.
        reflexivity.
      * replace (pre ++ y :: l) with ((pre ++ [y]) ++ l) in *
          by now rewrite <- app_assoc.
        replace (S (List.length pre)) with (List.length (pre ++ [y]))
          by (rewrite length_app; simpl; lia).
        rewrite IH; [|exact Hnd'|simpl in Hlen; lia].
        cbn [odd_positions]. now rewrite <- app_assoc.
Qed.

Lemma odd_positions_length {A} (l : list A) :
  List.length (odd_positions l) = (List.length l / 2)%nat.
Proof.
  rewrite <- Nat.div2_div.
  assert (H : forall n (l : list A), (List.length l <= n)%nat ->
                List.length (odd_positions l) = Nat.div2 (List.length l)).
  { induction n as [|n IH]; intros [|x [|y rest]] Hl; simpl in *; try reflexivity;
      try lia.
    f_equal. apply IH. lia. }
  apply (H (List.length l)). lia.
Qed.

(** X17. [setup_logging] does not remove all the handlers the logger has.
    The loop removes from the list it iterates over, so it removes the
    handlers at the positions 0, 2, 4, ... and skips the others: a logger
    with n handlers keeps n/2 of them (rounded down), with their levels, and
    gets the file handler and the stream handler after them; all receive the
    formatter. *)
Theorem setup_logging_keeps_every_second_handler (level : Z) (lg : Logging) :
  NoDup (map hid (handlers lg)) ->
  Forall (fun h => (hid h < next_hid lg)%nat) (handlers lg) ->
  setup_logging level None lg
  = (mk_Logging level
       (map (setFormatter log_format)
            (odd_positions (handlers lg)
             ++ [mk_Handler (next_hid lg) (Some LOGGING_FILENAME) level None;
                 mk_Handler (S (next_hid lg)) None level None]))
       (S (S (next_hid lg))),
     Return tt)
  /\ List.length (handlers (fst (setup_logging level None lg)))
     = (List.length (handlers lg) / 2 + 2)%nat.
Proof.
  intros Hnd Hlt.
  assert (K : remove_while_iterating (List.length (handlers lg)) 0 (handlers lg)
              = odd_positions (handlers lg)).
  { apply (remove_while_iterating_odd _ [] (handlers lg)); [exact Hnd|lia]. }
  assert (Hsub : forall x, In x (odd_positions (handlers lg)) -> In x (handlers lg)).
  { generalize (handlers lg). clear.
    assert (H : forall n (l : list Handler), (List.length l <= n)%nat ->
                  forall x, In x (odd_positions l) -> In x l).
    { induction n as [|n IH]; intros [|a [|b rest]] Hl x; simpl in *; try tauto;
        try lia.
      intros [<-|H]; [tauto|]. right. right. apply (IH rest); [lia|exact H]. }
    intros l. apply (H (List.length l)). lia. }
  assert (Hfresh : forall k, (next_hid lg <= k)%nat ->
             forall hs, (forall x, In x hs -> (hid x < next_hid lg)%nat) ->
             forall h, hid h = k -> handler_in h hs = false).
  { intros k Hk hs Hhs h Hh. apply not_true_is_false. intros H.
    apply handler_in_iff in H. apply in_map_iff in H as (x & Hx & Hin).
    apply Hhs in Hin. lia. }
  rewrite Forall_forall in Hlt.
  assert (E : setup_logging level None lg
              = (mk_Logging level
                   (map (setFormatter log_format)
                        (odd_positions (handlers lg)
                         ++ [mk_Handler (next_hid lg) (Some LOGGING_FILENAME) level None;
                             mk_Handler (S (next_hid lg)) None level None]))
                   (S (S (next_hid lg))),
                 Return tt)).
  { unfold setup_logging. rewrite K. unfold addHandler.
    rewrite (Hfresh (next_hid lg) (Nat.le_refl _) (odd_positions (handlers lg))
               (fun x Hx => Hlt x (Hsub x Hx))
               (mk_Handler (next_hid lg) (Some LOGGING_FILENAME) level None)
               eq_refl).
    replace (handler_in _ (odd_positions (handlers lg) ++ [_])) with false.
    - now rewrite <- app_assoc.
    - symmetry. apply not_true_is_false. intros H.
      apply handler_in_iff in H. rewrite map_app in H. apply in_app_or in H.
      destruct H as [H|H].
      + apply in_map_iff in H as (x & Hx & Hin). apply Hsub, Hlt in Hin.
        simpl in Hx. lia.
      + simpl in H. lia. }
  split; [exact E|].
  rewrite E. simpl. rewrite length_map, length_app, odd_positions_length.
  simpl. lia.
Qed.

(** The logger a first call leaves: its file handler and stream handler. *)
Definition logging_after_first_call : Logging :=
  fst (setup_logging 20 None (mk_Logging 0 [] 0)).

(** A second call keeps the stream handler of the first: three handlers. *)
Lemma setup_logging_keeps_every_second_handler_witness :
  List.length (handlers (fst (setup_logging 20 None logging_after_first_call)))
  = 3%nat.
Proof.
  refine (proj2 (setup_logging_keeps_every_second_handler 20
                   logging_after_first_call _ _)).
  - vm_compute. repeat constructor; simpl; intuition discriminate.
  - vm_compute. repeat constructor.
Defined.

(** ** list_members, further *)

Lemma list_members_loop_endless (team : DropboxTeam) (fuel j : nat) :
  (forall n, members_has_more (members_page team n) = true) ->
  list_members_loop fuel team (members_page team j) = None.
Proof.
  intros Hmore. revert j. induction fuel as [|fuel IH]; intros j; simpl.
  - now rewrite Hmore.
  - rewrite Hmore.
    change (team_members_list_continue team (members_cursor (members_page team j)))
      with (members_page team (S j)).
    now rewrite IH.
Qed.

(** X18. When every page of the member listing says that there is more,
    [list_members] never finishes: it keeps requesting pages, whatever the
    fuel.  With the theorem of the member enumerator: it finishes exactly
    when some page has the flag false. *)
Theorem list_members_needs_a_last_page (team : DropboxTeam) (fuel : nat) :
  (forall n, members_has_more (members_page team n) = true) ->
  list_members fuel team = None.
Proof.
  intros Hmore. unfold list_members, list_members_trace.
  change (team_members_list team) with (members_page team 0).
  now rewrite list_members_loop_endless.
Qed.

(** A service that repeats one page for ever. *)
Definition team_endless : DropboxTeam :=
  mk_DropboxTeam
    (mk_MembersListResult [alice] true (str "c"))
    (fun _ => mk_MembersListResult [alice] true (str "c"))
    (fun _ _ => empty_folder) (fun _ _ => empty_folder)
    (fun _ _ _ => None).

Lemma list_members_needs_a_last_page_witness :
  list_members 50 team_endless = None.
Proof.
  refine (list_members_needs_a_last_page team_endless 50 _).
  intros n. destruct n; reflexivity.
Defined.

(** ** list_and_save, further *)

Section Overflowing.
Variable hash_str : pystr -> Z.

Lemma discover_silent (e0 : exception) (fuel : nat) (team : DropboxTeam)
    (args : Namespace) (members_ : list TeamMemberInfo) :
  float_of_int (maxsize args) = Raise e0 ->
  silent e0 (discover fuel team args members_).
Proof.
  intros F. induction members_ as [|member_ rest IH]; simpl; [auto|].
  apply gen_then_silent; [|exact IH].
  now apply list_files_silent.
Qed.

End Overflowing.

Definition args_overflowing : Namespace :=
  mk_Namespace None (2 ^ 1024) (str "out") 20 (str "t") None.


Example list_and_save_overflow_raises :
  exists e, list_and_save (fun _ => 0) 3 fs_ok team_one_file args_overflowing
            = Some ([LogInfo (str "backup.py version 2.0.0")], Ends (Raise e))
            /\ exc_type e = OverflowError.
Proof. eexists. split; vm_compute; reflexivity. Qed.
